(** * The CHAI3D effects demo (commSome.cpp), embedded in Rocq

    The program is one C++ file: [main] builds a scene of four spheres and
    starts a worker thread running [renderHaptics]; the GLFW callbacks and
    the main graphic loop run on the main thread; [close] shuts the two down.

    Scalars are the program's own: C++ [double] is IEEE 754 binary64, which
    is what Rocq's primitive [float] is, so every arithmetic expression of
    the source is written with the same operations in the same order and
    can be evaluated.  C++ [int] is [Z].  The engine (CHAI3D), GLFW and libm
    are outside the repository: what the program reads from them comes in as
    an input of the function that reads it, and what it tells them is
    recorded (a list of calls, or a field of the state). *)

From Stdlib Require Import Floats ZArith List Bool Lia.
From Stdlib Require Uint63.
Import ListNotations.
Set Warnings "-inexact-float".

(** ** binary64

    The comparisons of the source ([<], [>]) are [PrimFloat.ltb], false
    whenever a side is a NaN.  [is_nan] is the test [x != x]. *)

Definition is_nan (x : float) : bool := negb (x =? x)%float.

(** ** cVector3d

    The engine's three-component vector of doubles, with the operators the
    program uses; each acts on the components with one binary64 operation,
    and [length] is [sqrt(x*x + y*y + z*z)]. *)

Module Vec.
Open Scope float_scope.

Record cVector3d : Set := mk { x : float; y : float; z : float }.

(** [a + b], [a.add(b)], [a += b] *)
Definition add (a b : cVector3d) : cVector3d :=
  mk (x a + x b) (y a + y b) (z a + z b).

(** [a - b] *)
Definition sub (a b : cVector3d) : cVector3d :=
  mk (x a - x b) (y a - y b) (z a - z b).

(** [-a] *)
Definition neg (a : cVector3d) : cVector3d :=
  mk (- x a) (- y a) (- z a).

(** [a * k], [k * a], [a *= k] *)
Definition mul (a : cVector3d) (k : float) : cVector3d :=
  mk (x a * k) (y a * k) (z a * k).

(** [a / k] *)
Definition div (a : cVector3d) (k : float) : cVector3d :=
  mk (x a / k) (y a / k) (z a / k).

(** [a.length()] *)
Definition length (a : cVector3d) : float :=
  sqrt (x a * x a + y a * y a + z a * z a).

(** [a.set(0, 0, 0)] and the like *)
Definition zero : cVector3d := mk 0 0 0.

(** The dot product; the program does not compute it, the statements about
    the direction of a force do. *)
Definition dot (a b : cVector3d) : float :=
  x a * x b + y a * y b + z a * z b.

End Vec.

Abbreviation cVector3d := Vec.cVector3d.

Declare Scope vec_scope.
Delimit Scope vec_scope with vec.
Bind Scope vec_scope with Vec.cVector3d.
Infix "+" := Vec.add : vec_scope.
Infix "-" := Vec.sub : vec_scope.
Notation "- a" := (Vec.neg a) : vec_scope.
Infix "*:" := Vec.mul (at level 40, left associativity) : vec_scope.
Infix "/:" := Vec.div (at level 40, left associativity) : vec_scope.

(** ** The scene

    What [main] constructs: a world with a list of children, and four
    spheres.  A sphere carries what the program sets on it: its radius and
    local position, its texture and material settings, and the haptic
    effects created on it.  A material property the program never sets is
    [None]: its value is then whatever the engine's default is. *)

Inductive SphereId : Set := Object0 | Object1 | Object2 | Object3.

Inductive Node : Set :=
| Camera
| Light
| Tool
| Sphere (o : SphereId).

(** The effects of the engine that the file names ([createEffect...]); the
    magnetic one appears only in lines that are commented out. *)
Inductive Effect : Set :=
| EffectSurface
| EffectViscosity
| EffectStickSlip
| EffectVibration
| EffectMagnetic.

Record cMaterial : Set := mkMaterial {
  gray : bool;
  stiffness : option float;
  viscosity : option float;
  stickSlipForceMax : option float;
  stickSlipStiffness : option float;
  vibrationFrequency : option float;
  vibrationAmplitude : option float;
  magnetMaxForce : option float;
  magnetMaxDistance : option float
}.

Record cShapeSphere : Set := mkSphere {
  radius : float;
  localPos : cVector3d;
  texture : bool;               (* m_texture = cTexture2d::create() *)
  sphericalMapping : bool;      (* m_texture->setSphericalMappingEnabled(true) *)
  useTexture : option bool;     (* setUseTexture *)
  material : cMaterial;
  effects : list Effect         (* in the order they are created *)
}.

Definition default_material : cMaterial :=
  mkMaterial false None None None None None None None None.

Definition set_gray (m : cMaterial) : cMaterial :=
  mkMaterial true (stiffness m) (viscosity m) (stickSlipForceMax m)
    (stickSlipStiffness m) (vibrationFrequency m) (vibrationAmplitude m)
    (magnetMaxForce m) (magnetMaxDistance m).

Definition setStiffness (v : float) (m : cMaterial) : cMaterial :=
  mkMaterial (gray m) (Some v) (viscosity m) (stickSlipForceMax m)
    (stickSlipStiffness m) (vibrationFrequency m) (vibrationAmplitude m)
    (magnetMaxForce m) (magnetMaxDistance m).

Definition setViscosity (v : float) (m : cMaterial) : cMaterial :=
  mkMaterial (gray m) (stiffness m) (Some v) (stickSlipForceMax m)
    (stickSlipStiffness m) (vibrationFrequency m) (vibrationAmplitude m)
    (magnetMaxForce m) (magnetMaxDistance m).

Definition setStickSlipForceMax (v : float) (m : cMaterial) : cMaterial :=
  mkMaterial (gray m) (stiffness m) (viscosity m) (Some v)
    (stickSlipStiffness m) (vibrationFrequency m) (vibrationAmplitude m)
    (magnetMaxForce m) (magnetMaxDistance m).

Definition setStickSlipStiffness (v : float) (m : cMaterial) : cMaterial :=
  mkMaterial (gray m) (stiffness m) (viscosity m) (stickSlipForceMax m)
    (Some v) (vibrationFrequency m) (vibrationAmplitude m)
    (magnetMaxForce m) (magnetMaxDistance m).

Definition setVibrationFrequency (v : float) (m : cMaterial) : cMaterial :=
  mkMaterial (gray m) (stiffness m) (viscosity m) (stickSlipForceMax m)
    (stickSlipStiffness m) (Some v) (vibrationAmplitude m)
    (magnetMaxForce m) (magnetMaxDistance m).

Definition setVibrationAmplitude (v : float) (m : cMaterial) : cMaterial :=
  mkMaterial (gray m) (stiffness m) (viscosity m) (stickSlipForceMax m)
    (stickSlipStiffness m) (vibrationFrequency m) (Some v)
    (magnetMaxForce m) (magnetMaxDistance m).

(** [new cShapeSphere(r)]: the engine keeps [fabs(r)] as the radius. *)
Definition new_cShapeSphere (r : float) : cShapeSphere :=
  mkSphere (abs r) Vec.zero false false None default_material [].

Definition setLocalPos (p : cVector3d) (o : cShapeSphere) : cShapeSphere :=
  mkSphere (radius o) p (texture o) (sphericalMapping o) (useTexture o)
    (material o) (effects o).

Definition create_texture (o : cShapeSphere) : cShapeSphere :=
  mkSphere (radius o) (localPos o) true (sphericalMapping o) (useTexture o)
    (material o) (effects o).

Definition setSphericalMappingEnabled (o : cShapeSphere) : cShapeSphere :=
  mkSphere (radius o) (localPos o) (texture o) true (useTexture o)
    (material o) (effects o).

Definition setUseTexture (b : bool) (o : cShapeSphere) : cShapeSphere :=
  mkSphere (radius o) (localPos o) (texture o) (sphericalMapping o) (Some b)
    (material o) (effects o).

Definition on_material (f : cMaterial -> cMaterial) (o : cShapeSphere)
  : cShapeSphere :=
  mkSphere (radius o) (localPos o) (texture o) (sphericalMapping o)
    (useTexture o) (f (material o)) (effects o).

Definition createEffect (e : Effect) (o : cShapeSphere) : cShapeSphere :=
  mkSphere (radius o) (localPos o) (texture o) (sphericalMapping o)
    (useTexture o) (material o) (effects o ++ [e]).

Record Scene : Set := mkScene {
  children : list Node;         (* the world's children, in insertion order *)
  object0 : cShapeSphere;
  object1 : cShapeSphere;
  object2 : cShapeSphere;
  object3 : cShapeSphere
}.

Definition sphere (s : Scene) (o : SphereId) : cShapeSphere :=
  match o with
  | Object0 => object0 s
  | Object1 => object1 s
  | Object2 => object2 s
  | Object3 => object3 s
  end.

(** [world->addChild(n)] *)
Definition addChild (n : Node) (world : list Node) : list Node := world ++ [n].

(** ** Conversions between [int] and [double]

    [int w = 0.8 * mode->height] converts the [int] to [double], multiplies,
    and truncates the product toward zero.  Out of the range of [int] (and
    for an infinity or a NaN) the C++ conversion is undefined; the model
    gives the truncated value, and 0 when there is none. *)

Definition double_of_int (n : Z) : float :=
  if (n <? 0)%Z then (- of_uint63 (Uint63.of_Z (- n)))%float
  else of_uint63 (Uint63.of_Z n).

Definition int_of_double (f : float) : Z :=
  match Prim2SF f with
  | S754_finite s m e =>
      let v := Z.shiftl (Zpos m) e in if s then (- v)%Z else v
  | _ => 0%Z
  end.

(** ** GLFW: constants of glfw3.h, the video mode, the window *)

Definition GLFW_RELEASE : Z := 0.
Definition GLFW_PRESS : Z := 1.
Definition GLFW_REPEAT : Z := 2.
Definition GLFW_KEY_ESCAPE : Z := 256.
Definition GLFW_KEY_F : Z := 70.
Definition GLFW_KEY_M : Z := 77.
Definition GLFW_KEY_Q : Z := 81.
Definition GLFW_SAMPLES : Z := 0x0002100D.

Record GLFWvidmode : Set := mkVidmode {
  width : Z;
  height : Z;
  refreshRate : Z
}.

(** The window as the program configures it: on the monitor (full screen)
    or not, its position and size, the refresh rate it was last given, and
    the close request [glfwWindowShouldClose] reads. *)
Record Window : Set := mkWindow {
  onMonitor : bool;
  posX : Z;
  posY : Z;
  sizeW : Z;
  sizeH : Z;
  refresh : option Z;
  shouldClose : bool
}.

(** [glfwSetWindowShouldClose(w, GLFW_TRUE)] *)
Definition glfwSetWindowShouldClose (w : Window) : Window :=
  mkWindow (onMonitor w) (posX w) (posY w) (sizeW w) (sizeH w) (refresh w) true.

(** [glfwSetWindowMonitor(w, monitor, x, y, width, height, rate)] *)
Definition glfwSetWindowMonitor (monitor : bool) (x y w h rate : Z)
  (win : Window) : Window :=
  mkWindow monitor x y w h (Some rate) (shouldClose win).

(** ** The globals of the main thread *)

Record Globals : Set := mkGlobals {
  fullscreen : bool;
  mirroredDisplay : bool;
  windowW : Z;
  windowH : Z;
  framebufferW : Z;
  framebufferH : Z;
  swapInterval : Z;
  window : Window;
  cameraMirrorVertical : bool;          (* camera->setMirrorVertical *)
  viewport : option (float * float);    (* nullptr, or its content scale *)
  currentSwapInterval : option Z;       (* last glfwSwapInterval *)
  samplesHint : option Z;               (* last glfwWindowHint(GLFW_SAMPLES, _) *)
  framesRendered : nat                  (* freqCounterGraphics.signal(1) *)
}.

Definition set_fullscreen (b : bool) (g : Globals) : Globals :=
  mkGlobals b (mirroredDisplay g) (windowW g) (windowH g) (framebufferW g)
    (framebufferH g) (swapInterval g) (window g) (cameraMirrorVertical g)
    (viewport g) (currentSwapInterval g) (samplesHint g) (framesRendered g).

Definition set_mirroredDisplay (b : bool) (g : Globals) : Globals :=
  mkGlobals (fullscreen g) b (windowW g) (windowH g) (framebufferW g)
    (framebufferH g) (swapInterval g) (window g) (cameraMirrorVertical g)
    (viewport g) (currentSwapInterval g) (samplesHint g) (framesRendered g).

Definition set_windowSize (w h : Z) (g : Globals) : Globals :=
  mkGlobals (fullscreen g) (mirroredDisplay g) w h (framebufferW g)
    (framebufferH g) (swapInterval g) (window g) (cameraMirrorVertical g)
    (viewport g) (currentSwapInterval g) (samplesHint g) (framesRendered g).

Definition set_framebufferSize (w h : Z) (g : Globals) : Globals :=
  mkGlobals (fullscreen g) (mirroredDisplay g) (windowW g) (windowH g) w h
    (swapInterval g) (window g) (cameraMirrorVertical g)
    (viewport g) (currentSwapInterval g) (samplesHint g) (framesRendered g).

Definition set_window (w : Window) (g : Globals) : Globals :=
  mkGlobals (fullscreen g) (mirroredDisplay g) (windowW g) (windowH g)
    (framebufferW g) (framebufferH g) (swapInterval g) w
    (cameraMirrorVertical g) (viewport g) (currentSwapInterval g)
    (samplesHint g) (framesRendered g).

Definition setMirrorVertical (b : bool) (g : Globals) : Globals :=
  mkGlobals (fullscreen g) (mirroredDisplay g) (windowW g) (windowH g)
    (framebufferW g) (framebufferH g) (swapInterval g) (window g) b
    (viewport g) (currentSwapInterval g) (samplesHint g) (framesRendered g).

Definition set_viewport (v : option (float * float)) (g : Globals) : Globals :=
  mkGlobals (fullscreen g) (mirroredDisplay g) (windowW g) (windowH g)
    (framebufferW g) (framebufferH g) (swapInterval g) (window g)
    (cameraMirrorVertical g) v (currentSwapInterval g) (samplesHint g)
    (framesRendered g).

Definition glfwSwapInterval (n : Z) (g : Globals) : Globals :=
  mkGlobals (fullscreen g) (mirroredDisplay g) (windowW g) (windowH g)
    (framebufferW g) (framebufferH g) (swapInterval g) (window g)
    (cameraMirrorVertical g) (viewport g) (Some n) (samplesHint g)
    (framesRendered g).

Definition glfwWindowHint_SAMPLES (n : Z) (g : Globals) : Globals :=
  mkGlobals (fullscreen g) (mirroredDisplay g) (windowW g) (windowH g)
    (framebufferW g) (framebufferH g) (swapInterval g) (window g)
    (cameraMirrorVertical g) (viewport g) (currentSwapInterval g) (Some n)
    (framesRendered g).

Definition signal_freqCounterGraphics (g : Globals) : Globals :=
  mkGlobals (fullscreen g) (mirroredDisplay g) (windowW g) (windowH g)
    (framebufferW g) (framebufferH g) (swapInterval g) (window g)
    (cameraMirrorVertical g) (viewport g) (currentSwapInterval g)
    (samplesHint g) (S (framesRendered g)).

(** ** renderGraphics and the callbacks *)

(** The drawing itself is the engine's and GLFW's; what remains of
    [renderGraphics] in the program's state is the early return on a null
    viewport and the frame counted at the end. *)
Definition renderGraphics (g : Globals) : Globals :=
  match viewport g with
  | None => g
  | Some _ => signal_freqCounterGraphics g
  end.

Definition onWindowSizeCallback (a_width a_height : Z) (g : Globals) : Globals :=
  renderGraphics (set_windowSize a_width a_height g).

Definition onFrameBufferSizeCallback (a_width a_height : Z) (g : Globals)
  : Globals :=
  set_framebufferSize a_width a_height g.

Definition onWindowContentScaleCallback (a_xscale a_yscale : float)
  (g : Globals) : Globals :=
  match viewport g with
  | None => g                   (* a call through a null pointer: undefined *)
  | Some _ => set_viewport (Some (a_xscale, a_yscale)) g
  end.

(** [onKeyCallback]; [mode] is what [glfwGetVideoMode] returns for the
    primary monitor, and [a_window] is the program's one window. *)
Definition onKeyCallback (mode : GLFWvidmode)
  (a_key a_scancode a_action a_mods : Z) (g : Globals) : Globals :=
  if negb (a_action =? GLFW_PRESS)%Z && negb (a_action =? GLFW_REPEAT)%Z then
    g
  else if (a_key =? GLFW_KEY_ESCAPE)%Z || (a_key =? GLFW_KEY_Q)%Z then
    set_window (glfwSetWindowShouldClose (window g)) g
  else if (a_key =? GLFW_KEY_F)%Z then
    let g := set_fullscreen (negb (fullscreen g)) g in
    let g :=
      if fullscreen g then
        set_window
          (glfwSetWindowMonitor true 0 0 (width mode) (height mode)
             (refreshRate mode) (window g)) g
      else
        let w := int_of_double (0.8 * double_of_int (height mode)) in
        let h := int_of_double (0.5 * double_of_int (height mode)) in
        let x := int_of_double (0.5 * double_of_int (width mode - w)) in
        let y := int_of_double (0.5 * double_of_int (height mode - h)) in
        set_window
          (glfwSetWindowMonitor false x y w h (refreshRate mode) (window g)) g
    in
    let g := glfwSwapInterval (swapInterval g) g in
    glfwWindowHint_SAMPLES 4 g
  else if (a_key =? GLFW_KEY_M)%Z then
    let g := set_mirroredDisplay (negb (mirroredDisplay g)) g in
    setMirrorVertical (mirroredDisplay g) g
  else
    g.

(** ** The main graphic loop

    [glfwPollEvents] hands each pending event to its callback.  A close
    request is the user closing the window: GLFW sets the flag itself. *)

Inductive Event : Set :=
| KeyEvent (key scancode action mods : Z)
| WindowSizeEvent (w h : Z)
| FramebufferSizeEvent (w h : Z)
| ContentScaleEvent (xscale yscale : float)
| CloseRequest.

Definition dispatch (mode : GLFWvidmode) (g : Globals) (e : Event) : Globals :=
  match e with
  | KeyEvent k sc a m => onKeyCallback mode k sc a m g
  | WindowSizeEvent w h => onWindowSizeCallback w h g
  | FramebufferSizeEvent w h => onFrameBufferSizeCallback w h g
  | ContentScaleEvent xs ys => onWindowContentScaleCallback xs ys g
  | CloseRequest => set_window (glfwSetWindowShouldClose (window g)) g
  end.

Definition glfwPollEvents (mode : GLFWvidmode) (pending : list Event)
  (g : Globals) : Globals :=
  fold_left (dispatch mode) pending g.

(** [while (!glfwWindowShouldClose(window)) { renderGraphics();
    glfwPollEvents(); }], run on the events of successive polls.  The
    result says whether the loop was left ([true]) or is still running when
    the given polls are used up ([false]). *)
Fixpoint main_graphic_loop (mode : GLFWvidmode) (polls : list (list Event))
  (g : Globals) : Globals * bool :=
  if shouldClose (window g) then (g, true)
  else
    match polls with
    | [] => (g, false)
    | pending :: rest =>
        main_graphic_loop mode rest
          (glfwPollEvents mode pending (renderGraphics g))
    end.

(** ** main, up to the main graphic loop *)

Record cHapticDeviceInfo : Set := mkDeviceInfo {
  m_maxLinearForce : float;
  m_maxLinearStiffness : float;
  m_maxLinearDamping : float
}.

(** What [main] reads from GLFW, GLEW and the engine on its way. *)
Record Platform : Set := mkPlatform {
  glfwInit : bool;
  videoMode : GLFWvidmode;              (* of the primary monitor *)
  glfwCreateWindow : bool;              (* a window, or NULL *)
  framebufferSize : Z * Z;              (* glfwGetFramebufferSize *)
  glewInit : option bool;               (* None: built without GLEW *)
  getSpecifications : cHapticDeviceInfo;
  getWorkspaceScaleFactor : float;
  contentScale : float * float          (* glfwGetWindowContentScale *)
}.

(** The engine's [cMin(a, b)]: [a <= b ? a : b]. *)
Definition cMin (a b : float) : float := if (a <=? b)%float then a else b.

(** The block "CREATING OBJECTS" of [main] (lines 342-495), statement by
    statement; [world] holds the camera, the light and the tool already. *)
Definition create_objects (hapticDeviceInfo : cHapticDeviceInfo)
  (workspaceScaleFactor : float) (world : list Node) : Scene :=
  let maxLinearForce := cMin (m_maxLinearForce hapticDeviceInfo) 7.0 in
  let maxStiffness :=
    (m_maxLinearStiffness hapticDeviceInfo / workspaceScaleFactor)%float in
  let maxDamping :=
    (m_maxLinearDamping hapticDeviceInfo / workspaceScaleFactor)%float in
  (* OBJECT 0: "MAGNET" *)
  let object0 := new_cShapeSphere 0.5 in
  let world := addChild (Sphere Object0) world in
  let object0 := setLocalPos (Vec.mk 0.0 (-1.2) 0.0) object0 in
  let object0 := create_texture object0 in
  let object0 := setSphericalMappingEnabled object0 in
  let object0 := on_material set_gray object0 in
  let object0 := createEffect EffectSurface object0 in
  (* OBJECT 1: "FLUID"; its addChild is commented out (line 399) *)
  let object1 := new_cShapeSphere 0.3 in
  let object1 := setLocalPos (Vec.mk 0.0 0 0.0) object1 in
  let object1 := create_texture object1 in
  let object1 := on_material set_gray object1 in
  let object1 := setUseTexture true object1 in
  let object1 := setSphericalMappingEnabled object1 in
  let object1 := on_material (setViscosity (0.9 * maxDamping)%float) object1 in
  let object1 := createEffect EffectViscosity object1 in
  (* OBJECT 2: "STICK-SLIP" *)
  let object2 := new_cShapeSphere 0.3 in
  let world := addChild (Sphere Object2) world in
  let object2 := setLocalPos (Vec.mk 0.0 1 0) object2 in
  let object2 := create_texture object2 in
  let object2 := setSphericalMappingEnabled object2 in
  let object2 := on_material set_gray object2 in
  let object2 := setUseTexture true object2 in
  let object2 :=
    on_material (setStickSlipForceMax (0.2 * maxLinearForce)%float) object2 in
  let object2 :=
    on_material (setStickSlipStiffness (0.6 * maxStiffness)%float) object2 in
  let object2 := createEffect EffectStickSlip object2 in
  (* OBJECT 3: "VIBRATIONS" *)
  let object3 := new_cShapeSphere 0.5 in
  let world := addChild (Sphere Object3) world in
  let object3 := setLocalPos (Vec.mk 0 0.0 0) object3 in
  let object3 := create_texture object3 in
  let object3 := setSphericalMappingEnabled object3 in
  let object3 := setUseTexture true object3 in
  let object3 := on_material set_gray object3 in
  let object3 := on_material (setVibrationFrequency 60) object3 in
  let object3 :=
    on_material (setVibrationAmplitude (0.5 * maxLinearForce)%float) object3 in
  let object3 := on_material (setStiffness 0.1) object3 in
  let object3 := createEffect EffectVibration object3 in
  let object3 := createEffect EffectSurface object3 in
  let object3 := createEffect EffectViscosity object3 in
  mkScene world object0 object1 object2 object3.

(** [main] either returns 1 on the way, or reaches its main graphic loop
    with the haptics thread started on [renderHaptics] and [close]
    registered with [atexit].  The settings of the camera, the light and
    the tool (lines 262-333) are calls into the engine; of them the model
    keeps the three [addChild] and the camera's mirror setting. *)
Inductive MainResult : Set :=
| Exit (code : Z)
| Started (g : Globals) (s : Scene).

Definition main_setup (p : Platform) : MainResult :=
  if negb (glfwInit p) then Exit 1
  else
    let mode := videoMode p in
    let windowW := int_of_double (0.8 * double_of_int (height mode)) in
    let windowH := int_of_double (0.5 * double_of_int (height mode)) in
    let x := int_of_double (0.5 * double_of_int (width mode - windowW)) in
    let y := int_of_double (0.5 * double_of_int (height mode - windowH)) in
    if negb (glfwCreateWindow p) then Exit 1
    else
      let swapInterval := 1%Z in
      let mirroredDisplay := false in
      match glewInit p with
      | Some false => Exit 1
      | _ =>
          (* WORLD - CAMERA - LIGHTING, HAPTIC DEVICES / TOOLS *)
          let world := [] in
          let world := addChild Camera world in
          let world := addChild Light world in
          let world := addChild Tool world in
          let scene :=
            create_objects (getSpecifications p) (getWorkspaceScaleFactor p)
              world in
          Started
            (mkGlobals false mirroredDisplay windowW windowH
               (fst (framebufferSize p)) (snd (framebufferSize p))
               swapInterval
               (mkWindow false x y windowW windowH None false)
               mirroredDisplay (Some (contentScale p)) (Some swapInterval)
               (Some 4%Z) 0)
            scene
      end.

(** ** Two statements about the scene [main] builds, as predicates *)

Definition all_spheres : list SphereId := [Object0; Object1; Object2; Object3].

(** "Every sphere object constructed during initialization is added as a
    child of the world." *)
Definition every_sphere_in_world (s : Scene) : Prop :=
  forall o, In o all_spheres -> In (Sphere o) (children s).

(** The material properties an effect is rendered from, as the file pairs
    them under "set haptic properties" with the effect created next. *)
Inductive Property : Set :=
| PStiffness
| PViscosity
| PStickSlipForceMax
| PStickSlipStiffness
| PVibrationFrequency
| PVibrationAmplitude
| PMagnetMaxForce
| PMagnetMaxDistance.

Definition property (q : Property) (m : cMaterial) : option float :=
  match q with
  | PStiffness => stiffness m
  | PViscosity => viscosity m
  | PStickSlipForceMax => stickSlipForceMax m
  | PStickSlipStiffness => stickSlipStiffness m
  | PVibrationFrequency => vibrationFrequency m
  | PVibrationAmplitude => vibrationAmplitude m
  | PMagnetMaxForce => magnetMaxForce m
  | PMagnetMaxDistance => magnetMaxDistance m
  end.

Definition properties_of (e : Effect) : list Property :=
  match e with
  | EffectSurface => [PStiffness]
  | EffectViscosity => [PViscosity]
  | EffectStickSlip => [PStickSlipForceMax; PStickSlipStiffness]
  | EffectVibration => [PVibrationFrequency; PVibrationAmplitude]
  | EffectMagnetic => [PMagnetMaxForce; PMagnetMaxDistance]
  end.

(** The value [main] gives property [q] of sphere [o], on a device with
    limits [info] and scale factor [wsf]. *)
Definition configured (o : SphereId) (q : Property)
  (info : cHapticDeviceInfo) (wsf : float) : option float :=
  property q (material (sphere (create_objects info wsf []) o)).

(** A property is set from the device's limits when its value follows the
    device: two devices can be told apart by it. *)
Definition set_from_device (o : SphereId) (q : Property) : Prop :=
  exists info1 info2 wsf,
    configured o q info1 wsf <> configured o q info2 wsf.

(** "Each [effect is] parameterized from the device's maximum force,
    stiffness, and damping limits": every effect on every sphere has a
    property that is set from them. *)
Definition every_effect_set_from_device : Prop :=
  forall info wsf o e,
    In e (effects (sphere (create_objects info wsf []) o)) ->
    exists q, In q (properties_of e) /\ set_from_device o q.

(** ** renderHaptics

    One pass of the loop reads the tool and the spheres from the engine;
    the values read are the [Frame] of that pass.  The calls that act on
    the engine or the device are appended to [calls]. *)

Record Frame : Set := mkFrame {
  getDeviceGlobalPos : cVector3d;       (* tool->getDeviceGlobalPos() *)
  getDeviceGlobalForce : cVector3d;     (* after computeInteractionForces() *)
  getDeviceGlobalLinVel : cVector3d;    (* tool->getDeviceGlobalLinVel() *)
  getGlobalPos : SphereId -> cVector3d  (* objectN->getGlobalPos() *)
}.

Inductive Call : Set :=
| computeGlobalPositions                (* world->computeGlobalPositions(true) *)
| updateFromDevice                      (* tool->updateFromDevice() *)
| computeInteractionForces              (* tool->computeInteractionForces() *)
| setDeviceGlobalForce (f : cVector3d)  (* tool->setDeviceGlobalForce(f) *)
| applyToDevice                         (* tool->applyToDevice() *)
| signal_freqCounterHaptics.            (* freqCounterHaptics.signal(1) *)

(** The global [inLoop], the locals of [renderHaptics] that live across
    passes, and the scene, of which the loop moves [object2]. *)
Record Haptics : Set := mkHaptics {
  inLoop : bool;
  object2Vel : cVector3d;
  oscTime0 : float;
  oscTime3 : float;
  scene : Scene;
  calls : list Call                     (* oldest first *)
}.

Definition set_inLoop (b : bool) (st : Haptics) : Haptics :=
  mkHaptics b (object2Vel st) (oscTime0 st) (oscTime3 st) (scene st) (calls st).

Definition set_object2Vel (v : cVector3d) (st : Haptics) : Haptics :=
  mkHaptics (inLoop st) v (oscTime0 st) (oscTime3 st) (scene st) (calls st).

Definition set_oscTime3 (t : float) (st : Haptics) : Haptics :=
  mkHaptics (inLoop st) (object2Vel st) (oscTime0 st) t (scene st) (calls st).

(** [object2->setLocalPos(p)] *)
Definition object2_setLocalPos (p : cVector3d) (st : Haptics) : Haptics :=
  let s := scene st in
  mkHaptics (inLoop st) (object2Vel st) (oscTime0 st) (oscTime3 st)
    (mkScene (children s) (object0 s) (object1 s) (setLocalPos p (object2 s))
       (object3 s))
    (calls st).

Definition log (c : list Call) (st : Haptics) : Haptics :=
  mkHaptics (inLoop st) (object2Vel st) (oscTime0 st) (oscTime3 st) (scene st)
    (calls st ++ c).

(** The constants declared at the top of [renderHaptics]. *)
Definition timeStep : float := 0.001.
Definition freq : float := 6.0.
Definition amp : float := 6.0.
Definition mass : float := 0.5.
Definition damping : float := 0.0.
Definition object2StartPos : cVector3d := Vec.mk 0.0 1.0 0.0.

(** State passing, written as the statements are. *)
Definition M (A : Type) : Type := Haptics -> A * Haptics.

Definition ret {A : Type} (a : A) : M A := fun st => (a, st).

Definition bind {A B : Type} (c : M A) (k : A -> M B) : M B :=
  fun st => let (a, st') := c st in k a st'.

Definition get : M Haptics := fun st => (st, st).

Definition modify (f : Haptics -> Haptics) : M unit := fun st => (tt, f st).

Definition call (c : Call) : M unit := modify (log [c]).

Declare Scope haptics_scope.
Delimit Scope haptics_scope with haptics.
Notation "x <- c ;; k" := (bind c (fun x => k))
  (at level 61, c at next level, right associativity) : haptics_scope.
Notation "c ;; k" := (bind c (fun _ => k))
  (at level 61, right associativity) : haptics_scope.
Open Scope haptics_scope.

(** The distance the three blocks compare: [(objPos - toolPos).length()]. *)
Definition distance (fr : Frame) (o : SphereId) (toolPos : cVector3d) : float :=
  Vec.length (getGlobalPos fr o - toolPos).

(** The block "Object0" (lines 747-766). *)
Definition object0_stage (fr : Frame) (toolPos baseForce : cVector3d)
  : M cVector3d :=
  st <- get ;;
  let objPos := getGlobalPos fr Object0 in
  let dir := (objPos - toolPos)%vec in
  let dist := Vec.length dir in
  let radiusSum := (0.05 + radius (object0 (scene st)))%float in
  if (dist <? radiusSum)%float then
    let linearVelocity := getDeviceGlobalLinVel fr in
    let Kv := 0.1%float in
    let forceDamping := (linearVelocity *: Kv)%vec in   (* Kv * linearVelocity *)
    let baseForce := (baseForce + forceDamping)%vec in
    let baseForce := (baseForce *: 4)%vec in
    ret baseForce
  else
    ret baseForce.

(** [radiusSum] of the block "Object3" (lines 773-775). *)
Definition object3_radiusSum (inLoop : bool) (r : float) : float :=
  if inLoop then (0.05 + r * 2)%float else (0.05 + r)%float.

(** The block "Object2" (lines 793-816).  [dir.normalize()] changes the
    local [dir] only, which is not read again. *)
Definition object2_stage (fr : Frame) (toolPos baseForce : cVector3d)
  : M cVector3d :=
  st <- get ;;
  let objPos := getGlobalPos fr Object2 in
  let dir := (objPos - toolPos)%vec in
  let dist := Vec.length dir in
  let radiusSum := (0.03 + radius (object2 (scene st)))%float in
  baseForce <-
    (if (dist <? radiusSum)%float then
       let netForce := (- baseForce - object2Vel st *: damping)%vec in
       modify (set_object2Vel
                 (object2Vel st + (netForce /: mass) *: timeStep)%vec) ;;
       ret (baseForce *: 10)%vec
     else
       ret baseForce) ;;
  st <- get ;;
  modify (object2_setLocalPos
            (localPos (object2 (scene st)) + object2Vel st *: timeStep)%vec) ;;
  modify (set_object2Vel (object2Vel st *: 0.999)%vec) ;;
  st <- get ;;
  (if (1.0 <? Vec.length (localPos (object2 (scene st)) - object2StartPos))%float
   then
     modify (set_object2Vel (Vec.mk 0 0 0)) ;;
     modify (object2_setLocalPos object2StartPos)
   else
     ret tt) ;;
  ret baseForce.

(** What the loop test reads at the start of a pass: whether [close] has
    cleared [simulationRunning] since the last test, and the frame of the
    pass that follows if it has not. *)
Record Tick : Set := mkTick {
  stop_requested : bool;
  frame : Frame
}.

Section Libm.

(** [sin] and [cos] of libm. *)
Variables sin cos : float -> float.

(** The block "Object3" (lines 768-791). *)
Definition object3_stage (fr : Frame) (toolPos baseForce : cVector3d)
  : M cVector3d :=
  st <- get ;;
  let objPos := getGlobalPos fr Object3 in
  let dir := (objPos - toolPos)%vec in
  let dist := Vec.length dir in
  let radiusSum :=
    object3_radiusSum (inLoop st) (radius (object3 (scene st))) in
  if (dist <? radiusSum)%float then
    modify (set_oscTime3 (oscTime3 st + timeStep)%float) ;;
    st <- get ;;
    let f := (amp * sin (2.0 * 3.14159 * freq * oscTime3 st))%float in
    let f2 := (amp * cos (2.0 * 3.14159 * freq * oscTime3 st))%float in
    let baseForce := (baseForce + Vec.mk (- f2) f f2)%vec in
    modify (set_inLoop true) ;;
    ret baseForce
  else
    modify (set_oscTime3 0.0) ;;
    modify (set_inLoop false) ;;
    ret baseForce.

(** The body of [while (simulationRunning)] (lines 740-820). *)
Definition haptics_iteration (fr : Frame) : M unit :=
  call computeGlobalPositions ;;
  call updateFromDevice ;;
  call computeInteractionForces ;;
  let toolPos := getDeviceGlobalPos fr in
  let baseForce := getDeviceGlobalForce fr in
  baseForce <- object0_stage fr toolPos baseForce ;;
  baseForce <- object3_stage fr toolPos baseForce ;;
  baseForce <- object2_stage fr toolPos baseForce ;;
  call (setDeviceGlobalForce baseForce) ;;
  call applyToDevice ;;
  call signal_freqCounterHaptics.

(** [while (simulationRunning) { ... }] on the ticks of successive tests.
    The flag returned says whether the loop was left ([true]) or is still
    running when the given ticks are used up. *)
Fixpoint haptics_loop (ticks : list Tick) (st : Haptics) : Haptics * bool :=
  match ticks with
  | [] => (st, false)
  | t :: rest =>
      if stop_requested t then (st, true)
      else haptics_loop rest (snd (haptics_iteration (frame t) st))
  end.

(** [renderHaptics], from the scene [main] built: the locals are
    initialised and the loop runs.  The global [inLoop] is [false] on
    entry (line 718; nothing else writes it).  The two flags the function
    writes before and after the loop, [simulationRunning] and
    [simulationFinished], are shared with [close]: they are in the model of
    the two threads, [Shutdown], below. *)
Definition renderHaptics (s : Scene) (ticks : list Tick) : Haptics * bool :=
  let object2Vel := Vec.mk 0.0 0.0 0.0 in
  let oscTime0 := 0.0%float in
  let oscTime3 := 0.0%float in
  haptics_loop ticks (mkHaptics false object2Vel oscTime0 oscTime3 s []).

End Libm.

(** To run the loop on numbers, a polynomial stands for each of libm's two
    functions (the Taylor sums to the 13th and 12th power, good near 0).
    Nothing is proved from them: every theorem about the loop holds for
    any [sin] and [cos]. *)
Definition sin_taylor (a : float) : float :=
  let a2 := (a * a)%float in
  (a * (1 - a2 / 6 * (1 - a2 / 20 * (1 - a2 / 42 * (1 - a2 / 72 *
     (1 - a2 / 110 * (1 - a2 / 156)))))))%float.

Definition cos_taylor (a : float) : float :=
  let a2 := (a * a)%float in
  (1 - a2 / 2 * (1 - a2 / 12 * (1 - a2 / 30 * (1 - a2 / 56 *
     (1 - a2 / 90 * (1 - a2 / 132))))))%float.

(** ** The two threads and the two flags

    [renderHaptics] runs on the haptics thread, [close] on the main thread
    when the process exits; they share [simulationRunning] and
    [simulationFinished].  Each thread is a program counter over its
    statements; a step of the system is a step of one thread, and a
    schedule is the list of threads that step.  The body of the loop is one
    place, [HBody]: the thread is there from the test that let it in until
    the end of the pass. *)

Module Shutdown.

Inductive HapticsPc : Set :=
| HSetRunning       (* before line 722: simulationRunning = true *)
| HSetFinished      (* before line 723: simulationFinished = false *)
| HTest             (* line 738: while (simulationRunning) *)
| HBody             (* lines 740-820 *)
| HLeave            (* before line 823: simulationFinished = true *)
| HReturned.

Inductive ClosePc : Set :=
| CClearRunning     (* before line 653: simulationRunning = false *)
| CTest             (* line 656: while (!simulationFinished) *)
| CSleep            (* line 656: cSleepMs(100) *)
| CStopTool         (* before line 659: tool->stop() *)
| CDelete           (* before lines 662-664: the three deletes *)
| CReturned.

Record State : Set := mkState {
  simulationRunning : bool;
  simulationFinished : bool;
  hpc : HapticsPc;
  cpc : ClosePc;
  toolStarted : bool;       (* tool->start() in main, tool->stop() in close *)
  resourcesDeleted : bool;
  passes : nat;             (* passes of the loop body completed *)
  slept_ms : Z              (* total of the cSleepMs arguments in close *)
}.

(** When [main] has started the haptics thread and registered [close]:
    the flags have their initial values (lines 72 and 75), the tool is
    started (line 333), neither thread has run a statement. *)
Definition initial : State :=
  mkState false true HSetRunning CClearRunning true false 0 0.

Inductive Thread : Set := HapticsThread | MainThread.

Definition step_haptics (s : State) : option State :=
  match hpc s with
  | HSetRunning =>
      Some (mkState true (simulationFinished s) HSetFinished (cpc s)
              (toolStarted s) (resourcesDeleted s) (passes s) (slept_ms s))
  | HSetFinished =>
      Some (mkState (simulationRunning s) false HTest (cpc s)
              (toolStarted s) (resourcesDeleted s) (passes s) (slept_ms s))
  | HTest =>
      Some (mkState (simulationRunning s) (simulationFinished s)
              (if simulationRunning s then HBody else HLeave) (cpc s)
              (toolStarted s) (resourcesDeleted s) (passes s) (slept_ms s))
  | HBody =>
      Some (mkState (simulationRunning s) (simulationFinished s) HTest (cpc s)
              (toolStarted s) (resourcesDeleted s) (S (passes s)) (slept_ms s))
  | HLeave =>
      Some (mkState (simulationRunning s) true HReturned (cpc s)
              (toolStarted s) (resourcesDeleted s) (passes s) (slept_ms s))
  | HReturned => None
  end.

Definition step_close (s : State) : option State :=
  match cpc s with
  | CClearRunning =>
      Some (mkState false (simulationFinished s) (hpc s) CTest
              (toolStarted s) (resourcesDeleted s) (passes s) (slept_ms s))
  | CTest =>
      Some (mkState (simulationRunning s) (simulationFinished s) (hpc s)
              (if negb (simulationFinished s) then CSleep else CStopTool)
              (toolStarted s) (resourcesDeleted s) (passes s) (slept_ms s))
  | CSleep =>
      Some (mkState (simulationRunning s) (simulationFinished s) (hpc s) CTest
              (toolStarted s) (resourcesDeleted s) (passes s)
              (slept_ms s + 100)%Z)
  | CStopTool =>
      Some (mkState (simulationRunning s) (simulationFinished s) (hpc s)
              CDelete false (resourcesDeleted s) (passes s) (slept_ms s))
  | CDelete =>
      Some (mkState (simulationRunning s) (simulationFinished s) (hpc s)
              CReturned (toolStarted s) true (passes s) (slept_ms s))
  | CReturned => None
  end.

Definition step (t : Thread) (s : State) : option State :=
  match t with
  | HapticsThread => step_haptics s
  | MainThread => step_close s
  end.

(** A thread that has returned does nothing when scheduled. *)
Definition step_or_stay (s : State) (t : Thread) : State :=
  match step t s with
  | Some s' => s'
  | None => s
  end.

Definition run (schedule : list Thread) (s : State) : State :=
  fold_left step_or_stay schedule s.

(** The haptics thread is in the body of its loop and the tool is stopped. *)
Definition body_on_stopped_tool (s : State) : bool :=
  match hpc s with
  | HBody => negb (toolStarted s)
  | _ => false
  end.

(** The haptics thread has run its two assignments (lines 722-723) and
    [close] has not been entered. *)
Definition haptics_started (s : State) : bool :=
  match hpc s, cpc s with
  | (HTest | HBody), CClearRunning =>
      simulationRunning s && negb (simulationFinished s) && toolStarted s
  | _, _ => false
  end.

(** What holds in every state from there on. *)
Definition handshake (s : State) : bool :=
  match hpc s with
  | HSetRunning | HSetFinished => false
  | HTest | HBody | HLeave => negb (simulationFinished s)
  | HReturned => true
  end
  && match cpc s with
     | CClearRunning | CTest | CSleep => toolStarted s
     | CStopTool => simulationFinished s && toolStarted s
     | CDelete | CReturned => simulationFinished s
     end.

End Shutdown.

(** ** Counting passes and forces *)


(** The number of passes of the loop on given ticks: those before the
    first test that finds [simulationRunning] cleared. *)
Fixpoint passes_run (ticks : list Tick) : nat :=
  match ticks with
  | [] => 0
  | t :: rest => if stop_requested t then 0 else S (passes_run rest)
  end.

(** ** Inputs to run the program on *)

Definition demo_device : cHapticDeviceInfo := mkDeviceInfo 8.0 3000.0 20.0.

Definition demo_platform : Platform :=
  mkPlatform true (mkVidmode 1920 1080 60) true (864, 540)%Z None
    demo_device 25.0 (1.0, 1.0)%float.

(** A concrete state of the main thread: what [main] leaves on the demo
    platform. *)
Definition demo_globals : Globals :=
  mkGlobals false false 864 540 864 540 1
    (mkWindow false 528 270 864 540 None false) false (Some (1.0, 1.0)%float)
    (Some 1%Z) (Some 4%Z) 0.

(** The scene [main] builds on the demo platform. *)
Definition demo_scene : Scene :=
  create_objects demo_device 25.0 [Camera; Light; Tool].

(** The state in which [renderHaptics] enters its loop. *)
Definition demo_haptics : Haptics :=
  mkHaptics false (Vec.mk 0 0 0) 0 0 demo_scene [].

(** A frame in which every sphere is where its local position says (the
    world is at the origin), for a given tool position, interaction force
    and tool velocity. *)
Definition frame_of (s : Scene) (toolPos force vel : cVector3d) : Frame :=
  mkFrame toolPos force vel (fun o => localPos (sphere s o)).

(** The schedule in which the process exits before the haptics thread has
    run its first statement: [close] runs to the end of [tool->stop()],
    then the haptics thread starts. *)
Definition close_first : list Shutdown.Thread :=
  [Shutdown.MainThread; Shutdown.MainThread; Shutdown.MainThread;
   Shutdown.HapticsThread; Shutdown.HapticsThread; Shutdown.HapticsThread].

(** ** What the main thread keeps, and what ends its loop *)

(** The settings that stay in step on the main thread: the window is on
    the monitor exactly when [fullscreen] says so, the camera mirrors
    exactly when [mirroredDisplay] says so, the swap interval and the
    multisampling hint are the ones [main] chose, and the viewport exists. *)
Definition in_step (g : Globals) : Prop :=
  onMonitor (window g) = fullscreen g
  /\ cameraMirrorVertical g = mirroredDisplay g
  /\ swapInterval g = 1%Z
  /\ currentSwapInterval g = Some 1%Z
  /\ samplesHint g = Some 4%Z
  /\ viewport g <> None.

(** The events that ask the window to close: a press or a repeat of Escape
    or Q, and the user closing the window. *)
Definition closes (e : Event) : bool :=
  match e with
  | KeyEvent k _ a _ =>
      ((a =? GLFW_PRESS)%Z || (a =? GLFW_REPEAT)%Z)
      && ((k =? GLFW_KEY_ESCAPE)%Z || (k =? GLFW_KEY_Q)%Z)
  | CloseRequest => true
  | _ => false
  end.

Definition resizes (e : Event) : bool :=
  match e with
  | WindowSizeEvent _ _ => true
  | _ => false
  end.

(** The polls the main graphic loop gets to: those up to and including the
    first one that delivers a closing event. *)
Fixpoint polls_run (polls : list (list Event)) : list (list Event) :=
  match polls with
  | [] => []
  | pending :: rest =>
      pending :: (if existsb closes pending then [] else polls_run rest)
  end.

(** The integers from [lo], [n] of them. *)
Fixpoint Zrange (lo : Z) (n : nat) : list Z :=
  match n with
  | O => []
  | S n => lo :: Zrange (lo + 1) n
  end.

(** The window geometry of [main] and of the F key, checked against
    integer arithmetic for one height and for one difference. *)
Definition size_exact (h : Z) : bool :=
  (int_of_double (0.8 * double_of_int h) =? 4 * h / 5)%Z
  && (int_of_double (0.5 * double_of_int h) =? h / 2)%Z.

Definition half_exact (n : Z) : bool :=
  (int_of_double (0.5 * double_of_int n) =? Z.quot n 2)%Z.

(** ** The passes of the haptics loop *)

(** The ticks before the first test that finds [simulationRunning]
    cleared. *)
Fixpoint ticks_run (ticks : list Tick) : list Tick :=
  match ticks with
  | [] => []
  | t :: rest => if stop_requested t then [] else t :: ticks_run rest
  end.

(** The calls of one pass that sends force [f]. *)
Definition pass_calls (f : cVector3d) : list Call :=
  [computeGlobalPositions; updateFromDevice; computeInteractionForces;
   setDeviceGlobalForce f; applyToDevice; signal_freqCounterHaptics].

(** The tool is out of reach of sphere [o] with radius sum [radiusSum]:
    the test of the block fails. *)
Definition out_of_reach (fr : Frame) (o : SphereId) (radiusSum : float) : Prop :=
  (distance fr o (getDeviceGlobalPos fr) <? radiusSum)%float = false.

(** The steps of the haptics thread in a schedule. *)
Fixpoint haptics_steps (schedule : list Shutdown.Thread) : nat :=
  match schedule with
  | [] => 0
  | Shutdown.HapticsThread :: rest => S (haptics_steps rest)
  | Shutdown.MainThread :: rest => haptics_steps rest
  end.

(** The order the two threads keep once the handshake holds: a thread that
    has returned has set [simulationFinished], the tool is stopped before
    the resources are deleted, nothing is deleted before [close] reaches
    its deletes, and the time slept is whole sleeps of 100 ms. *)
Definition orderly (s : Shutdown.State) : bool :=
  Shutdown.handshake s
  && match Shutdown.hpc s with
     | Shutdown.HReturned => Shutdown.simulationFinished s
     | _ => true
     end
  && match Shutdown.cpc s with
     | Shutdown.CDelete =>
         negb (Shutdown.toolStarted s) && negb (Shutdown.resourcesDeleted s)
     | Shutdown.CReturned =>
         negb (Shutdown.toolStarted s) && Shutdown.resourcesDeleted s
     | _ => negb (Shutdown.resourcesDeleted s)
     end
  && (Shutdown.slept_ms s mod 100 =? 0)%Z.

(** The steps the haptics thread still needs to return, once
    [simulationRunning] is cleared. *)
Definition steps_to_return (h : Shutdown.HapticsPc) : nat :=
  match h with
  | Shutdown.HBody => 3
  | Shutdown.HTest => 2
  | Shutdown.HLeave => 1
  | _ => 0
  end.

(** * Properties *)

(** Unfolds the state passing of a block. *)
Ltac run_block :=
  unfold haptics_iteration, object0_stage, object3_stage, object2_stage,
    call, bind, get, modify, ret, distance;
  cbn beta iota zeta.

(** ** Order on binary64

    The facts about [<] that the proofs need, derived from the
    specification of the primitive comparison ([SFcompare]). *)

Module FloatOrder.
Open Scope float_scope.

Lemma SFcompare_swap (a b : spec_float) :
  SFcompare b a = option_map CompOpp (SFcompare a b).
Proof.
  destruct a as [sa|sa| |sa ma ea], b as [sb|sb| |sb mb eb]; simpl;
    try reflexivity;
    try (destruct sa; reflexivity);
    try (destruct sb; reflexivity);
    try (destruct sa, sb; reflexivity).
  change (PosDef.Pos.compare_cont Eq) with Pos.compare.
  destruct sa, sb; simpl; try reflexivity;
    rewrite (Z.compare_antisym ea eb), (Pos.compare_antisym ma mb);
    destruct (ea ?= eb)%Z; simpl; try reflexivity;
    destruct (ma ?= mb)%positive; reflexivity.
Qed.

Lemma SFcompare_Lt_trans (a b c : spec_float) :
  SFcompare a b = Some Lt -> SFcompare b c = Some Lt -> SFcompare a c = Some Lt.
Proof.
  destruct a as [sa|sa| |sa ma ea], b as [sb|sb| |sb mb eb],
    c as [sc|sc| |sc mc ec]; simpl; try discriminate;
    repeat match goal with s : bool |- _ => destruct s end;
    simpl; try discriminate; try reflexivity;
    change (PosDef.Pos.compare_cont Eq) with Pos.compare;
    intros H1 H2; f_equal;
    destruct (Z.compare_spec ea eb), (Z.compare_spec eb ec), (Z.compare_spec ea ec);
    simpl in *; try discriminate; try reflexivity; try lia; subst;
    destruct (Pos.compare_spec ma mb), (Pos.compare_spec mb mc), (Pos.compare_spec ma mc);
    simpl in *; try discriminate; try reflexivity; try lia.
Qed.

Lemma ltb_trans (x y z : float) :
  (x <? y) = true -> (y <? z) = true -> (x <? z) = true.
Proof.
  rewrite !FloatAxioms.ltb_spec. unfold SFltb.
  destruct (SFcompare (Prim2SF x) (Prim2SF y)) as [[]|] eqn:E1; try discriminate.
  destruct (SFcompare (Prim2SF y) (Prim2SF z)) as [[]|] eqn:E2; try discriminate.
  now rewrite (SFcompare_Lt_trans _ _ _ E1 E2).
Qed.

(** Without a NaN on either side, "not less" is "greater or equal". *)
Lemma not_ltb_leb (x y : float) :
  (x <? y) = false -> is_nan x = false -> is_nan y = false -> (y <=? x) = true.
Proof.
  unfold is_nan. rewrite !negb_false_iff.
  rewrite FloatAxioms.ltb_spec, FloatAxioms.leb_spec, !FloatAxioms.eqb_spec.
  unfold SFltb, SFleb, SFeqb.
  rewrite (SFcompare_swap (Prim2SF x) (Prim2SF y)).
  destruct (SFcompare (Prim2SF x) (Prim2SF y)) as [[]|] eqn:E; simpl;
    try discriminate; try reflexivity.
  intros _.
  destruct (Prim2SF x) as [sa|sa| |sa ma ea], (Prim2SF y) as [sb|sb| |sb mb eb];
    simpl in *; try discriminate.
Qed.

End FloatOrder.

(** ** main: the scene *)

Lemma main_setup_scene (p : Platform) (g : Globals) (s : Scene) :
  main_setup p = Started g s ->
  s = create_objects (getSpecifications p) (getWorkspaceScaleFactor p)
        [Camera; Light; Tool].
Proof.
  unfold main_setup.
  destruct (glfwInit p); simpl; [|discriminate].
  destruct (glfwCreateWindow p); simpl; [|discriminate].
  destruct (glewInit p) as [[|]|]; try discriminate;
    intros H; injection H as _ <-; reflexivity.
Qed.

Lemma create_objects_children (info : cHapticDeviceInfo) (wsf : float)
  (world : list Node) :
  children (create_objects info wsf world)
  = world ++ [Sphere Object0; Sphere Object2; Sphere Object3].
Proof.
  unfold create_objects, addChild; simpl.
  now rewrite <- !app_assoc.
Qed.

(** C5, as stated, fails: on a platform where initialization succeeds,
    [main] reaches its graphic loop with a scene in which not every sphere
    it constructed is a child of the world. *)
Lemma main_does_not_add_every_sphere :
  match main_setup demo_platform with
  | Started _ s => ~ every_sphere_in_world s
  | Exit _ => False
  end.
Proof.
  simpl. intros H.
  specialize (H Object1 (or_intror (or_introl eq_refl))).
  vm_compute in H.
  repeat (destruct H as [H|H]; [discriminate H|]).
  exact H.
Qed.

(** C5, amended: whenever [main] reaches its graphic loop, the children of
    the world are the camera, the light, the tool, object0, object2 and
    object3, in that order; a sphere is a child of the world exactly when
    it is not object1, which is constructed and configured but never
    added. *)
Theorem main_adds_all_spheres_but_object1 (p : Platform) (g : Globals)
  (s : Scene) :
  main_setup p = Started g s ->
  children s
  = [Camera; Light; Tool; Sphere Object0; Sphere Object2; Sphere Object3]
  /\ (forall o, In (Sphere o) (children s) <-> o <> Object1)
  /\ radius (object1 s) = 0.3%float
  /\ effects (object1 s) = [EffectViscosity].
Proof.
  intros H. apply main_setup_scene in H. subst s.
  rewrite create_objects_children. simpl.
  split; [reflexivity|]. split; [|split; reflexivity].
  intros o; split.
  - intros H; repeat (destruct H as [H|H]; [try discriminate H|]);
      try contradiction; injection H as <-; discriminate.
  - destruct o; intros H; try congruence; simpl; auto 7.
Qed.

Lemma main_adds_all_spheres_but_object1_witness :
  exists g s,
    main_setup demo_platform = Started g s
    /\ children s
       = [Camera; Light; Tool; Sphere Object0; Sphere Object2; Sphere Object3]
    /\ ~ In (Sphere Object1) (children s).
Proof.
  destruct (main_setup demo_platform) as [c|g s] eqn:E;
    [vm_compute in E; discriminate E|].
  exists g, s.
  destruct (main_adds_all_spheres_but_object1 demo_platform g s E)
    as (Hc & Hin & _).
  split; [reflexivity|]. split; [exact Hc|].
  intros H. apply Hin in H. now apply H.
Defined.

(** ** main: the effects and their parameters *)

Lemma configured_object0 (q : Property) (info : cHapticDeviceInfo)
  (wsf : float) :
  configured Object0 q info wsf = None.
Proof. destruct q; reflexivity. Qed.

Lemma not_set_when_constant (o : SphereId) (q : Property) (v : option float) :
  (forall info wsf, configured o q info wsf = v) -> ~ set_from_device o q.
Proof.
  intros Hc (i1 & i2 & w & Hne). apply Hne. now rewrite !Hc.
Qed.

(** C6, as stated, fails: not every effect created by [main] has a
    parameter set from the device's limits. *)
Lemma some_effects_are_not_set_from_device : ~ every_effect_set_from_device.
Proof.
  intros H.
  destruct (H demo_device 25.0%float Object0 EffectSurface) as (q & Hq & Hset).
  - simpl. now left.
  - revert Hset. apply not_set_when_constant with (v := None).
    intros; apply configured_object0.
Qed.

(** C6, amended: whenever [main] reaches its graphic loop it has created a
    surface effect on object0 and on object3, a viscosity effect on object1
    and on object3, a stick-slip effect on object2 and a vibration effect
    on object3, and no other.  Set from the device's limits are object1's
    viscosity (0.9 of the maximum damping), object2's stick-slip force (0.2
    of the maximum force, itself capped at 7.0) and stick-slip stiffness
    (0.6 of the maximum stiffness) and object3's vibration amplitude (0.5 of
    the maximum force), the stiffness and damping limits divided by the
    workspace scale factor.  Object3's vibration frequency (60) and
    stiffness (0.1) are constants; object0's material gets no haptic
    property at all, and object3's viscosity is never set. *)
Theorem main_effects_and_parameters (p : Platform) (g : Globals) (s : Scene) :
  main_setup p = Started g s ->
  let info := getSpecifications p in
  let wsf := getWorkspaceScaleFactor p in
  let maxLinearForce := cMin (m_maxLinearForce info) 7.0 in
  let maxStiffness := (m_maxLinearStiffness info / wsf)%float in
  let maxDamping := (m_maxLinearDamping info / wsf)%float in
  (effects (object0 s) = [EffectSurface]
   /\ effects (object1 s) = [EffectViscosity]
   /\ effects (object2 s) = [EffectStickSlip]
   /\ effects (object3 s) = [EffectVibration; EffectSurface; EffectViscosity])
  /\ (viscosity (material (object1 s)) = Some (0.9 * maxDamping)%float
      /\ stickSlipForceMax (material (object2 s))
         = Some (0.2 * maxLinearForce)%float
      /\ stickSlipStiffness (material (object2 s))
         = Some (0.6 * maxStiffness)%float
      /\ vibrationAmplitude (material (object3 s))
         = Some (0.5 * maxLinearForce)%float)
  /\ (vibrationFrequency (material (object3 s)) = Some 60%float
      /\ stiffness (material (object3 s)) = Some 0.1%float
      /\ viscosity (material (object3 s)) = None
      /\ forall q, property q (material (object0 s)) = None)
  /\ (set_from_device Object1 PViscosity
      /\ set_from_device Object2 PStickSlipForceMax
      /\ set_from_device Object2 PStickSlipStiffness
      /\ set_from_device Object3 PVibrationAmplitude)
  /\ (~ set_from_device Object3 PVibrationFrequency
      /\ ~ set_from_device Object3 PStiffness
      /\ ~ set_from_device Object3 PViscosity
      /\ forall q, ~ set_from_device Object0 q).
Proof.
  intros H. apply main_setup_scene in H. subst s. cbv zeta.
  split; [repeat split|].
  split; [repeat split|].
  split; [repeat split; intros q; destruct q; reflexivity|].
  split.
  - repeat split.
    + exists (mkDeviceInfo 8.0 3000.0 20.0), (mkDeviceInfo 8.0 3000.0 40.0),
        25.0%float.
      vm_compute. discriminate.
    + exists (mkDeviceInfo 8.0 3000.0 20.0), (mkDeviceInfo 4.0 3000.0 20.0),
        25.0%float.
      vm_compute. discriminate.
    + exists (mkDeviceInfo 8.0 3000.0 20.0), (mkDeviceInfo 8.0 1500.0 20.0),
        25.0%float.
      vm_compute. discriminate.
    + exists (mkDeviceInfo 8.0 3000.0 20.0), (mkDeviceInfo 4.0 3000.0 20.0),
        25.0%float.
      vm_compute. discriminate.
  - split; [|split; [|split]].
    + apply not_set_when_constant with (v := Some 60%float). reflexivity.
    + apply not_set_when_constant with (v := Some 0.1%float). reflexivity.
    + apply not_set_when_constant with (v := None). reflexivity.
    + intros q. apply not_set_when_constant with (v := None).
      intros; apply configured_object0.
Qed.

Lemma main_effects_and_parameters_witness :
  exists g s,
    main_setup demo_platform = Started g s
    /\ effects (object3 s) = [EffectVibration; EffectSurface; EffectViscosity]
    /\ stickSlipStiffness (material (object2 s)) = Some 72%float
    /\ stiffness (material (object0 s)) = None.
Proof.
  destruct (main_setup demo_platform) as [c|g s] eqn:E;
    [vm_compute in E; discriminate E|].
  exists g, s.
  destruct (main_effects_and_parameters demo_platform g s E)
    as ((_ & _ & _ & He3) & (_ & _ & Hs2 & _) & (_ & _ & _ & H0) & _).
  split; [reflexivity|]. split; [exact He3|]. split.
  - rewrite Hs2. vm_compute. reflexivity.
  - exact (H0 PStiffness).
Defined.

(** ** The key callback and the main graphic loop *)

Lemma renderGraphics_window (g : Globals) : window (renderGraphics g) = window g.
Proof. unfold renderGraphics. now destruct (viewport g). Qed.

(** No callback withdraws a close request. *)
Lemma dispatch_keeps_close (mode : GLFWvidmode) (g : Globals) (e : Event) :
  shouldClose (window g) = true ->
  shouldClose (window (dispatch mode g e)) = true.
Proof.
  intros H. destruct e as [k sc a m|w h|w h|xs ys|]; simpl; trivial.
  - unfold onKeyCallback.
    destruct (negb (a =? GLFW_PRESS)%Z && negb (a =? GLFW_REPEAT)%Z); trivial.
    destruct ((k =? GLFW_KEY_ESCAPE)%Z || (k =? GLFW_KEY_Q)%Z); trivial.
    destruct (k =? GLFW_KEY_F)%Z.
    + simpl. destruct (negb (fullscreen g)); simpl; exact H.
    + destruct (k =? GLFW_KEY_M)%Z; simpl; exact H.
  - unfold onWindowSizeCallback. rewrite renderGraphics_window. exact H.
  - unfold onWindowContentScaleCallback. destruct (viewport g); exact H.
Qed.

Lemma glfwPollEvents_keeps_close (mode : GLFWvidmode) (pending : list Event) :
  forall g, shouldClose (window g) = true ->
            shouldClose (window (glfwPollEvents mode pending g)) = true.
Proof.
  unfold glfwPollEvents.
  induction pending as [|e pending IH]; intros g H; simpl; [exact H|].
  apply IH. now apply dispatch_keeps_close.
Qed.

Lemma onKeyCallback_quit (mode : GLFWvidmode) (k sc a m : Z) (g : Globals) :
  a = GLFW_PRESS \/ a = GLFW_REPEAT ->
  k = GLFW_KEY_ESCAPE \/ k = GLFW_KEY_Q ->
  onKeyCallback mode k sc a m g
  = set_window (glfwSetWindowShouldClose (window g)) g.
Proof.
  intros Ha Hk. unfold onKeyCallback.
  replace (negb (a =? GLFW_PRESS)%Z && negb (a =? GLFW_REPEAT)%Z) with false
    by (destruct Ha; subst a; reflexivity).
  replace ((k =? GLFW_KEY_ESCAPE)%Z || (k =? GLFW_KEY_Q)%Z) with true
    by (destruct Hk; subst k; reflexivity).
  reflexivity.
Qed.

Lemma glfwPollEvents_quit (mode : GLFWvidmode) (pending : list Event)
  (k sc m : Z) :
  k = GLFW_KEY_ESCAPE \/ k = GLFW_KEY_Q ->
  In (KeyEvent k sc GLFW_PRESS m) pending ->
  forall g, shouldClose (window (glfwPollEvents mode pending g)) = true.
Proof.
  intros Hk. unfold glfwPollEvents.
  induction pending as [|e pending IH]; intros Hin g; simpl in *; [easy|].
  destruct Hin as [->|Hin]; [|now apply IH].
  apply (glfwPollEvents_keeps_close mode pending). simpl.
  rewrite onKeyCallback_quit by auto. reflexivity.
Qed.

(** C10: a key event whose action is neither a press nor a repeat leaves
    every global of the main thread as it was: the fullscreen flag, the
    mirroring flag, the camera's mirror setting, the window and its close
    request with them.  A press of Escape or of Q sets the close request of
    the window and changes nothing else; with the request set the main
    graphic loop is left at its next test without another frame, so the
    loop ends right after the poll that delivered the key. *)
Theorem onKeyCallback_frame_and_quit (mode : GLFWvidmode) :
  (forall k sc a m g,
      a <> GLFW_PRESS -> a <> GLFW_REPEAT -> onKeyCallback mode k sc a m g = g)
  /\ (forall k sc m g,
         k = GLFW_KEY_ESCAPE \/ k = GLFW_KEY_Q ->
         onKeyCallback mode k sc GLFW_PRESS m g
         = set_window (glfwSetWindowShouldClose (window g)) g
         /\ shouldClose (window (onKeyCallback mode k sc GLFW_PRESS m g)) = true)
  /\ (forall polls g,
         shouldClose (window g) = true ->
         main_graphic_loop mode polls g = (g, true))
  /\ (forall pending rest g k sc m,
         shouldClose (window g) = false ->
         k = GLFW_KEY_ESCAPE \/ k = GLFW_KEY_Q ->
         In (KeyEvent k sc GLFW_PRESS m) pending ->
         main_graphic_loop mode (pending :: rest) g
         = (glfwPollEvents mode pending (renderGraphics g), true)).
Proof.
  split; [|split; [|split]].
  - intros k sc a m g Hp Hr. unfold onKeyCallback.
    apply Z.eqb_neq in Hp, Hr. now rewrite Hp, Hr.
  - intros k sc m g Hk.
    rewrite onKeyCallback_quit by auto. split; reflexivity.
  - intros polls g H. destruct polls; simpl; now rewrite H.
  - intros pending rest g k sc m Hopen Hk Hin. simpl. rewrite Hopen.
    pose proof (glfwPollEvents_quit mode pending k sc m Hk Hin
                  (renderGraphics g)) as Hclose.
    destruct rest; simpl; now rewrite Hclose.
Qed.

Lemma onKeyCallback_frame_and_quit_witness :
  onKeyCallback (mkVidmode 1920 1080 60) GLFW_KEY_F 33 GLFW_RELEASE 0
    demo_globals = demo_globals
  /\ shouldClose
       (window (onKeyCallback (mkVidmode 1920 1080 60) GLFW_KEY_Q 24
                  GLFW_PRESS 0 demo_globals)) = true
  /\ snd (main_graphic_loop (mkVidmode 1920 1080 60)
            [[KeyEvent GLFW_KEY_M 58 GLFW_PRESS 0;
              KeyEvent GLFW_KEY_ESCAPE 9 GLFW_PRESS 0]; []; []]
            demo_globals) = true.
Proof.
  destruct (onKeyCallback_frame_and_quit (mkVidmode 1920 1080 60))
    as (Hframe & Hquit & _ & Hloop).
  split; [|split].
  - apply Hframe; discriminate.
  - apply Hquit. now right.
  - rewrite (Hloop _ _ _ GLFW_KEY_ESCAPE 9%Z 0%Z); simpl; auto.
Defined.

Lemma log_log (a b : list Call) (st : Haptics) :
  log b (log a st) = log (a ++ b) st.
Proof. unfold log; simpl. now rewrite <- app_assoc. Qed.


(** The block "Object0" reads the state and leaves it as it is. *)
Lemma object0_stage_state (fr : Frame) (toolPos f : cVector3d) (st : Haptics) :
  snd (object0_stage fr toolPos f st) = st.
Proof.
  run_block.
  now destruct (Vec.length (getGlobalPos fr Object0 - toolPos)
                <? 0.05 + radius (object0 (scene st)))%float.
Qed.

(** Its force, in and out of reach. *)
Lemma object0_stage_force (fr : Frame) (toolPos f : cVector3d) (st : Haptics) :
  fst (object0_stage fr toolPos f st)
  = if (distance fr Object0 toolPos <? 0.05 + radius (object0 (scene st)))%float
    then ((f + getDeviceGlobalLinVel fr *: 0.1) *: 4)%vec
    else f.
Proof.
  run_block.
  now destruct (Vec.length (getGlobalPos fr Object0 - toolPos)
                <? 0.05 + radius (object0 (scene st)))%float.
Qed.


(** ** The block "Object2" *)

(** The block "Object2" as one equation: the force it returns and the state
    it leaves. *)
Lemma object2_stage_unfold (fr : Frame) (toolPos baseForce : cVector3d)
  (st : Haptics) :
  let inside :=
    (distance fr Object2 toolPos <? 0.03 + radius (object2 (scene st)))%float in
  let euler :=
    (((- baseForce - object2Vel st *: 0.0) /: 0.5) *: 0.001)%vec in
  let vel1 := if inside then (object2Vel st + euler)%vec else object2Vel st in
  let pos1 := (localPos (object2 (scene st)) + vel1 *: 0.001)%vec in
  let vel2 := (vel1 *: 0.999)%vec in
  let far := (1.0 <? Vec.length (pos1 - object2StartPos))%float in
  object2_stage fr toolPos baseForce st
  = (if inside then (baseForce *: 10)%vec else baseForce,
     if far
     then object2_setLocalPos object2StartPos (set_object2Vel (Vec.mk 0 0 0) st)
     else object2_setLocalPos pos1 (set_object2Vel vel2 st)).
Proof.
  run_block.
  destruct (Vec.length (getGlobalPos fr Object2 - toolPos)
            <? 0.03 + radius (object2 (scene st)))%float;
    cbn beta iota zeta;
    lazymatch goal with
    | |- _ = (_, if ?c then _ else _) =>
        let E := fresh "E" in
        destruct c eqn:E;
        match goal with
        | |- context [if ?c' then _ else _] => change c' with c; rewrite E
        end
    end; reflexivity.
Qed.

(** C4: in the block "Object2", when the distance from the tool to
    object2's global position is below 0.03 plus object2's radius, the
    velocity takes one explicit Euler step,
    [((-baseForce - damping * velocity) / mass) * timeStep] with mass 0.5,
    damping 0 and time step 0.001, and the force that goes on to the device
    is multiplied by 10; otherwise both are left as they are.  In every
    pass, in reach or not, the local position then advances by that
    velocity times the time step and the velocity is scaled by 0.999: these
    are the position and the velocity the block leaves, unless the advanced
    position fails the test of C9 (farther than 1.0 from the start), in
    which case the same pass puts the sphere back and zeroes the velocity.
    Nothing else of the state changes. *)
Theorem object2_stage_dynamics (fr : Frame) (toolPos baseForce : cVector3d)
  (st : Haptics) :
  let inside :=
    (distance fr Object2 toolPos <? 0.03 + radius (object2 (scene st)))%float in
  let euler :=
    (((- baseForce - object2Vel st *: 0.0) /: 0.5) *: 0.001)%vec in
  let vel1 := if inside then (object2Vel st + euler)%vec else object2Vel st in
  let pos1 := (localPos (object2 (scene st)) + vel1 *: 0.001)%vec in
  let far := (1.0 <? Vec.length (pos1 - Vec.mk 0.0 1.0 0.0))%float in
  let st' := snd (object2_stage fr toolPos baseForce st) in
  fst (object2_stage fr toolPos baseForce st)
  = (if inside then (baseForce *: 10)%vec else baseForce)
  /\ (far = false ->
      localPos (object2 (scene st')) = pos1
      /\ object2Vel st' = (vel1 *: 0.999)%vec)
  /\ (far = true ->
      localPos (object2 (scene st')) = Vec.mk 0.0 1.0 0.0
      /\ object2Vel st' = Vec.mk 0 0 0)
  /\ (inLoop st' = inLoop st /\ oscTime3 st' = oscTime3 st
      /\ calls st' = calls st
      /\ radius (object2 (scene st')) = radius (object2 (scene st))
      /\ object0 (scene st') = object0 (scene st)
      /\ object1 (scene st') = object1 (scene st)
      /\ object3 (scene st') = object3 (scene st)
      /\ children (scene st') = children (scene st)).
Proof.
  cbv zeta. rewrite object2_stage_unfold. cbv zeta.
  change (Vec.mk 0.0 1.0 0.0) with object2StartPos.
  split; [reflexivity|].
  split; [|split]; try (intros ->; split; reflexivity).
  match goal with
  | |- context [if ?c then _ else _] => destruct c
  end;
  match goal with
  | |- context [snd (_, if ?c then _ else _)] => destruct c
  end; repeat split; reflexivity.
Qed.

Section LoopProperties.

Variables sin cos : float -> float.

(** ** The block "Object3" *)

Lemma object3_stage_inside (fr : Frame) (toolPos f : cVector3d) (st : Haptics) :
  (distance fr Object3 toolPos
   <? object3_radiusSum (inLoop st) (radius (object3 (scene st))))%float = true ->
  let t := (oscTime3 st + 0.001)%float in
  object3_stage sin cos fr toolPos f st
  = ((f + Vec.mk (- (6.0 * cos (2.0 * 3.14159 * 6.0 * t)))
                 (6.0 * sin (2.0 * 3.14159 * 6.0 * t))
                 (6.0 * cos (2.0 * 3.14159 * 6.0 * t)))%vec,
     set_inLoop true (set_oscTime3 t st)).
Proof.
  intros H. unfold distance in H. run_block. rewrite H. reflexivity.
Qed.

Lemma object3_stage_outside (fr : Frame) (toolPos f : cVector3d) (st : Haptics) :
  (distance fr Object3 toolPos
   <? object3_radiusSum (inLoop st) (radius (object3 (scene st))))%float = false ->
  object3_stage sin cos fr toolPos f st
  = (f, set_inLoop false (set_oscTime3 0.0 st)).
Proof.
  intros H. unfold distance in H. run_block. rewrite H. reflexivity.
Qed.

(** C3: in the block "Object3", when the tool is within the proximity
    threshold of object3, the oscillator time [oscTime3] is advanced by the
    time step 0.001 and the vector [(-A cos(w t), A sin(w t), A cos(w t))]
    is added to the force, with [t] the advanced time, amplitude [A = 6],
    and [w = 2 pi f] for frequency [f = 6], pi being the program's constant
    3.14159; when the tool is outside the threshold the time is reset to 0
    and the force is left as it is.  The flag [inLoop] records which of
    the two happened, and nothing else of the state changes.  [sin] and
    [cos] are libm's, whatever they compute. *)
Theorem object3_stage_oscillation (fr : Frame) (toolPos f : cVector3d)
  (st : Haptics) :
  let within :=
    (distance fr Object3 toolPos
     <? object3_radiusSum (inLoop st) (radius (object3 (scene st))))%float in
  let t := (oscTime3 st + 0.001)%float in
  let w := (2.0 * 3.14159 * 6.0)%float in
  (within = true ->
   object3_stage sin cos fr toolPos f st
   = ((f + Vec.mk (- (6.0 * cos (w * t))) (6.0 * sin (w * t))
                  (6.0 * cos (w * t)))%vec,
      set_inLoop true (set_oscTime3 t st)))
  /\ (within = false ->
      object3_stage sin cos fr toolPos f st
      = (f, set_inLoop false (set_oscTime3 0.0 st))).
Proof.
  cbv zeta. split; intros H.
  - now rewrite (object3_stage_inside fr toolPos f st H).
  - now rewrite (object3_stage_outside fr toolPos f st H).
Qed.


(** What the block "Object3" leaves alone. *)
Lemma object3_stage_frame (fr : Frame) (toolPos f : cVector3d) (st : Haptics) :
  let st' := snd (object3_stage sin cos fr toolPos f st) in
  scene st' = scene st /\ object2Vel st' = object2Vel st
  /\ calls st' = calls st.
Proof.
  cbv zeta.
  destruct (distance fr Object3 toolPos
            <? object3_radiusSum (inLoop st) (radius (object3 (scene st))))%float
    eqn:H.
  - rewrite (object3_stage_inside fr toolPos f st H). repeat split.
  - rewrite (object3_stage_outside fr toolPos f st H). repeat split.
Qed.

(** ** One pass of the loop *)

(** The pass as the composition of its three blocks between the engine
    calls. *)
Lemma haptics_iteration_unfold (fr : Frame) (st : Haptics) :
  let toolPos := getDeviceGlobalPos fr in
  let s :=
    log [computeGlobalPositions; updateFromDevice; computeInteractionForces]
      st in
  let r0 := object0_stage fr toolPos (getDeviceGlobalForce fr) s in
  let r3 := object3_stage sin cos fr toolPos (fst r0) (snd r0) in
  let r2 := object2_stage fr toolPos (fst r3) (snd r3) in
  haptics_iteration sin cos fr st
  = (tt, log [setDeviceGlobalForce (fst r2); applyToDevice;
              signal_freqCounterHaptics] (snd r2)).
Proof.
  cbv zeta. unfold haptics_iteration, call, bind, modify.
  cbn beta iota zeta. rewrite !log_log. cbn [app].
  destruct (object0_stage fr (getDeviceGlobalPos fr) (getDeviceGlobalForce fr)
              (log [computeGlobalPositions; updateFromDevice;
                    computeInteractionForces] st)) as [f0 s0].
  cbn [fst snd].
  destruct (object3_stage sin cos fr (getDeviceGlobalPos fr) f0 s0) as [f3 s3].
  cbn [fst snd].
  destruct (object2_stage fr (getDeviceGlobalPos fr) f3 s3) as [f2 s2].
  cbn [fst snd]. rewrite !log_log. reflexivity.
Qed.

(** C9, amended: at the end of every pass of the loop, object2's local
    position is not farther than 1.0 from its start position (0, 1, 0): the
    test of the source, [length > 1.0], is false of it, and its distance
    from the start is at most 1.0 whenever that distance is a number (a NaN
    that the engine's force brings in compares false and stays).  The position
    comes from the block "Object2", run on the force [f3] and the state
    [s3] the two blocks before it leave: whenever the update moves the
    sphere farther than 1.0 from the start, the same pass ends with the
    position at the start and the velocity zero; otherwise it ends with
    the moved position. *)
Theorem object2_stays_within_unit_distance (fr : Frame) (st : Haptics) :
  let toolPos := getDeviceGlobalPos fr in
  let start := Vec.mk 0.0 1.0 0.0 in
  let s :=
    log [computeGlobalPositions; updateFromDevice; computeInteractionForces]
      st in
  let r0 := object0_stage fr toolPos (getDeviceGlobalForce fr) s in
  let r3 := object3_stage sin cos fr toolPos (fst r0) (snd r0) in
  let f3 := fst r3 in
  let inside :=
    (distance fr Object2 toolPos <? 0.03 + radius (object2 (scene st)))%float in
  let vel1 :=
    if inside
    then (object2Vel st
          + ((- f3 - object2Vel st *: 0.0) /: 0.5) *: 0.001)%vec
    else object2Vel st in
  let moved := (localPos (object2 (scene st)) + vel1 *: 0.001)%vec in
  let st' := snd (haptics_iteration sin cos fr st) in
  let d' := Vec.length (localPos (object2 (scene st')) - start) in
  (1.0 <? d')%float = false
  /\ (is_nan d' = false -> (d' <=? 1.0)%float = true)
  /\ ((1.0 <? Vec.length (moved - start))%float = true ->
      localPos (object2 (scene st')) = start
      /\ object2Vel st' = Vec.mk 0 0 0)
  /\ ((1.0 <? Vec.length (moved - start))%float = false ->
      localPos (object2 (scene st')) = moved).
Proof.
  cbv zeta. rewrite haptics_iteration_unfold. cbv zeta. cbn [snd].
  set (s := log [computeGlobalPositions; updateFromDevice;
                 computeInteractionForces] st).
  set (r0 := object0_stage fr (getDeviceGlobalPos fr)
               (getDeviceGlobalForce fr) s).
  set (r3 := object3_stage sin cos fr (getDeviceGlobalPos fr) (fst r0) (snd r0)).
  destruct (object3_stage_frame fr (getDeviceGlobalPos fr) (fst r0) (snd r0))
    as (Hscene & Hvel & _).
  fold r3 in Hscene, Hvel.
  assert (H0 : snd r0 = s) by apply object0_stage_state.
  rewrite H0 in Hscene, Hvel.
  change (scene s) with (scene st) in Hscene.
  change (object2Vel s) with (object2Vel st) in Hvel.
  rewrite object2_stage_unfold. cbv zeta. cbn [snd].
  rewrite Hscene, Hvel.
  change (Vec.mk 0.0 1.0 0.0) with object2StartPos.
  match goal with
  | |- context [log _ (if ?c then _ else _)] => destruct c eqn:Efar
  end.
  - split; [reflexivity|]. split; [reflexivity|].
    split; [intros _; split; reflexivity|discriminate].
  - split; [exact Efar|]. split.
    + intros Hnan. apply FloatOrder.not_ltb_leb; trivial.
    + split; [discriminate|]. intros _. reflexivity.
Qed.




End LoopProperties.

(** ** The block "Object0" *)

(** C2 at a concrete pass: the tool at the centre of object0 (distance 0,
    below 0.05 + 0.5), moving with velocity (1, 0, 0), no force from the
    engine.  The block returns [(0 + 0.1 * v) * 4 = (0.4, 0, 0)]: the
    vector blended into the force is [+0.1 * v], along the velocity and not
    against it (the dot product with the velocity is positive), although
    the source calls it the damping force.  In general the block returns
    [(baseForce + 0.1 * v) * 4] within the threshold and [baseForce]
    outside it, and leaves the state as it is. *)
Theorem object0_stage_adds_along_velocity :
  let toolPos := Vec.mk 0 (-1.2) 0 in
  let v := Vec.mk 1 0 0 in
  let fr := frame_of demo_scene toolPos (Vec.mk 0 0 0) v in
  (forall fr toolPos baseForce st,
      object0_stage fr toolPos baseForce st
      = (if (distance fr Object0 toolPos
             <? 0.05 + radius (object0 (scene st)))%float
         then ((baseForce + getDeviceGlobalLinVel fr *: 0.1) *: 4)%vec
         else baseForce,
         st))
  /\ (distance fr Object0 toolPos
      <? 0.05 + radius (object0 (scene demo_haptics)))%float = true
  /\ fst (object0_stage fr toolPos (Vec.mk 0 0 0) demo_haptics)
     = Vec.mk 0.4 0 0
  /\ (0 <? Vec.dot (fst (object0_stage fr toolPos (Vec.mk 0 0 0) demo_haptics))
                    v)%float = true.
Proof.
  cbv zeta. split.
  - intros fr toolPos baseForce st.
    rewrite (surjective_pairing (object0_stage fr toolPos baseForce st)).
    now rewrite object0_stage_force, object0_stage_state.
  - repeat split; vm_compute; reflexivity.
Qed.

(** ** Passes on numbers *)

Lemma object3_stage_oscillation_witness :
  let inside := frame_of demo_scene (Vec.mk 0.3 0 0) Vec.zero Vec.zero in
  let outside := frame_of demo_scene (Vec.mk 0.8 0 0) Vec.zero Vec.zero in
  let started := set_inLoop true (set_oscTime3 0.25 demo_haptics) in
  (oscTime3 (snd (object3_stage sin_taylor cos_taylor inside (Vec.mk 0.3 0 0)
                    Vec.zero demo_haptics)) = 0.001%float
   /\ (5.99 <? Vec.z (fst (object3_stage sin_taylor cos_taylor inside
                             (Vec.mk 0.3 0 0) Vec.zero demo_haptics)))%float
      = true)
  /\ object3_stage sin_taylor cos_taylor outside (Vec.mk 0.8 0 0)
       (Vec.mk 1 2 3) demo_haptics
     = (Vec.mk 1 2 3, demo_haptics)
  /\ oscTime3 (snd (object3_stage sin_taylor cos_taylor outside
                      (Vec.mk 0.8 0 0) Vec.zero started)) = 0.251%float.
Proof.
  cbv zeta. split; [|split].
  - destruct (object3_stage_oscillation sin_taylor cos_taylor
                (frame_of demo_scene (Vec.mk 0.3 0 0) Vec.zero Vec.zero)
                (Vec.mk 0.3 0 0) Vec.zero demo_haptics) as (Hin & _).
    rewrite (Hin eq_refl). split; vm_compute; reflexivity.
  - destruct (object3_stage_oscillation sin_taylor cos_taylor
                (frame_of demo_scene (Vec.mk 0.8 0 0) Vec.zero Vec.zero)
                (Vec.mk 0.8 0 0) (Vec.mk 1 2 3) demo_haptics) as (_ & Hout).
    rewrite (Hout eq_refl). reflexivity.
  - destruct (object3_stage_oscillation sin_taylor cos_taylor
                (frame_of demo_scene (Vec.mk 0.8 0 0) Vec.zero Vec.zero)
                (Vec.mk 0.8 0 0) Vec.zero
                (set_inLoop true (set_oscTime3 0.25 demo_haptics)))
      as (Hin & _).
    rewrite (Hin eq_refl). vm_compute. reflexivity.
Defined.


(** C9, as stated, fails: in a pass that finds the tool within reach of
    object2 and gets a force with a NaN component from the engine, the
    Euler step makes the velocity, and with it the position, NaN.  The
    test [length > 1.0] is false of a NaN, so nothing is reset: the pass
    ends with object2 at (0, NaN, 0), whose distance from the start is not
    at most 1.0, and so does every later pass, here one with the tool far
    from all spheres and no force.  [sin] and [cos] are not called in the
    first pass (the tool is out of reach of object3), so it ends that way
    whatever they are. *)
Lemma nan_force_takes_object2_out_of_range :
  let hit := frame_of demo_scene (Vec.mk 0 1.2 0) (Vec.mk 0 nan 0) Vec.zero in
  let calm := frame_of demo_scene (Vec.mk 2 2 2) Vec.zero Vec.zero in
  let st1 := snd (haptics_iteration sin_taylor cos_taylor hit demo_haptics) in
  let st2 := snd (haptics_iteration sin_taylor cos_taylor calm st1) in
  (localPos (object2 (scene st1)) = Vec.mk 0 nan 0
   /\ (Vec.length (localPos (object2 (scene st1)) - Vec.mk 0.0 1.0 0.0)
       <=? 1.0)%float = false)
  /\ (localPos (object2 (scene st2)) = Vec.mk 0 nan 0
      /\ (Vec.length (localPos (object2 (scene st2)) - Vec.mk 0.0 1.0 0.0)
          <=? 1.0)%float = false)
  /\ ~ (exists sin cos : float -> float,
          (Vec.length
             (localPos
                (object2 (scene (snd (haptics_iteration sin cos hit
                                        demo_haptics))))
              - Vec.mk 0.0 1.0 0.0) <=? 1.0)%float = true).
Proof.
  cbv zeta. split; [|split].
  - split; vm_compute; reflexivity.
  - split; vm_compute; reflexivity.
  - intros (sin & cos & H). vm_compute in H. discriminate H.
Qed.

Lemma object2_stays_within_unit_distance_witness :
  let thrown :=
    frame_of demo_scene (Vec.mk 0 1.2 0) (Vec.mk 0 (-2000000) 0) Vec.zero in
  let pushed :=
    frame_of demo_scene (Vec.mk 0 1.2 0) (Vec.mk 0 (-2) 0) Vec.zero in
  (localPos (object2 (scene (snd (haptics_iteration sin_taylor cos_taylor
                                    thrown demo_haptics))))
   = Vec.mk 0.0 1.0 0.0
   /\ object2Vel (snd (haptics_iteration sin_taylor cos_taylor thrown
                         demo_haptics)) = Vec.mk 0 0 0)
  /\ localPos (object2 (scene (snd (haptics_iteration sin_taylor cos_taylor
                                      pushed demo_haptics))))
     = Vec.mk 0 1.000004 0
  /\ (Vec.length
        (localPos (object2 (scene (snd (haptics_iteration sin_taylor
                                          cos_taylor pushed demo_haptics))))
         - Vec.mk 0.0 1.0 0.0) <=? 1.0)%float = true.
Proof.
  cbv zeta.
  destruct (object2_stays_within_unit_distance sin_taylor cos_taylor
              (frame_of demo_scene (Vec.mk 0 1.2 0) (Vec.mk 0 (-2000000) 0)
                 Vec.zero) demo_haptics) as (_ & _ & Hreset & _).
  destruct (object2_stays_within_unit_distance sin_taylor cos_taylor
              (frame_of demo_scene (Vec.mk 0 1.2 0) (Vec.mk 0 (-2) 0)
                 Vec.zero) demo_haptics) as (_ & Hle & _ & Hmoved).
  split; [exact (Hreset eq_refl)|].
  split; [rewrite (Hmoved eq_refl); vm_compute; reflexivity|].
  exact (Hle eq_refl).
Defined.

(** ** Shutdown *)

Lemma step_or_stay_handshake (s : Shutdown.State) (t : Shutdown.Thread) :
  Shutdown.handshake s = true ->
  Shutdown.handshake (Shutdown.step_or_stay s t) = true.
Proof.
  destruct s as [r f h c tool del n ms].
  destruct t, h, c, r, f, tool; simpl; intros H;
    try discriminate H; reflexivity.
Qed.

Lemma run_handshake (schedule : list Shutdown.Thread) :
  forall s, Shutdown.handshake s = true ->
            Shutdown.handshake (Shutdown.run schedule s) = true.
Proof.
  unfold Shutdown.run.
  induction schedule as [|t schedule IH]; intros s H; simpl; [exact H|].
  apply IH. now apply step_or_stay_handshake.
Qed.

(** Once the haptics thread has run its two assignments before [close] is
    entered, the handshake works on every schedule: the tool is never
    stopped while the thread is in the body of its loop, [close] sleeps
    100 ms at a time, and when [close] has stopped the tool the loop has
    been left and [simulationFinished] set. *)
Lemma shutdown_safe_once_haptics_started (schedule : list Shutdown.Thread)
  (s : Shutdown.State) :
  Shutdown.haptics_started s = true ->
  let s' := Shutdown.run schedule s in
  Shutdown.body_on_stopped_tool s' = false
  /\ (Shutdown.toolStarted s' = false ->
      Shutdown.hpc s' = Shutdown.HReturned
      /\ Shutdown.simulationFinished s' = true).
Proof.
  intros Hs. cbv zeta.
  assert (H : Shutdown.handshake (Shutdown.run schedule s) = true).
  { apply run_handshake.
    destruct s as [r f h c tool del n ms].
    destruct h, c, r, f, tool; simpl in *; try discriminate Hs; reflexivity. }
  destruct (Shutdown.run schedule s) as [r f h c tool del n ms].
  destruct h, c, r, f, tool; simpl in *; try discriminate H;
    split; try reflexivity; intros; try discriminate; split; reflexivity.
Qed.

(** After [close_first] and the rest of [close], the haptics thread stays
    in its loop however long it runs: [simulationRunning] is true and
    nothing clears it any more. *)
Lemma haptics_loops_on_after_close_first (n : nat) :
  let s :=
    Shutdown.run (close_first
                  ++ [Shutdown.MainThread]
                  ++ repeat Shutdown.HapticsThread (2 * n))
      Shutdown.initial in
  Shutdown.hpc s = Shutdown.HBody
  /\ Shutdown.simulationRunning s = true
  /\ Shutdown.passes s = n
  /\ Shutdown.toolStarted s = false
  /\ Shutdown.resourcesDeleted s = true
  /\ Shutdown.cpc s = Shutdown.CReturned.
Proof.
  cbv zeta. unfold Shutdown.run. rewrite !fold_left_app.
  change (fold_left Shutdown.step_or_stay [Shutdown.MainThread]
            (fold_left Shutdown.step_or_stay close_first Shutdown.initial))
    with (Shutdown.mkState true false Shutdown.HBody Shutdown.CReturned
            false true 0 0).
  induction n as [|n IH].
  - repeat split.
  - replace (2 * S n) with (2 * n + 2) by lia.
    rewrite repeat_app, fold_left_app.
    destruct (fold_left Shutdown.step_or_stay
                (repeat Shutdown.HapticsThread (2 * n))
                (Shutdown.mkState true false Shutdown.HBody
                   Shutdown.CReturned false true 0 0))
      as [r f h c tool del k ms].
    simpl in IH. destruct IH as (-> & -> & -> & -> & -> & ->).
    repeat split.
Qed.

(** C7 at the schedule [close_first], from the state in which [main] has
    started the haptics thread and registered [close]: [close] clears
    [simulationRunning], finds [simulationFinished] still at its initial
    [true], and stops the tool without having slept; the haptics thread
    then sets [simulationRunning], clears [simulationFinished], passes its
    loop test and is in the body of the loop with the tool stopped.  From
    there [close] deletes the resources and returns, and the loop goes on
    for as many passes as the thread is given. *)
Theorem close_first_stops_tool_under_loop :
  let s := Shutdown.run close_first Shutdown.initial in
  (Shutdown.hpc s = Shutdown.HBody
   /\ Shutdown.simulationRunning s = true
   /\ Shutdown.toolStarted s = false
   /\ Shutdown.slept_ms s = 0%Z
   /\ Shutdown.body_on_stopped_tool s = true)
  /\ (forall n,
         let s' :=
           Shutdown.run (close_first ++ [Shutdown.MainThread]
                         ++ repeat Shutdown.HapticsThread (2 * n))
             Shutdown.initial in
         Shutdown.hpc s' = Shutdown.HBody
         /\ Shutdown.passes s' = n
         /\ Shutdown.toolStarted s' = false
         /\ Shutdown.resourcesDeleted s' = true).
Proof.
  cbv zeta. split.
  - repeat split.
  - intros n.
    destruct (haptics_loops_on_after_close_first n)
      as (Hpc & _ & Hn & Htool & Hdel & _).
    repeat split; assumption.
Qed.

(** * Further properties *)

(** ** main: how it ends, and the window it opens *)

Lemma main_setup_globals (p : Platform) (g : Globals) (s : Scene) :
  main_setup p = Started g s ->
  let mode := videoMode p in
  let w := int_of_double (0.8 * double_of_int (height mode)) in
  let h := int_of_double (0.5 * double_of_int (height mode)) in
  let x := int_of_double (0.5 * double_of_int (width mode - w)) in
  let y := int_of_double (0.5 * double_of_int (height mode - h)) in
  g = mkGlobals false false w h (fst (framebufferSize p))
        (snd (framebufferSize p)) 1 (mkWindow false x y w h None false)
        false (Some (contentScale p)) (Some 1%Z) (Some 4%Z) 0.
Proof.
  unfold main_setup.
  destruct (glfwInit p); simpl; [|discriminate].
  destruct (glfwCreateWindow p); simpl; [|discriminate].
  destruct (glewInit p) as [[|]|]; try discriminate;
    intros H; injection H as <- _; reflexivity.
Qed.

(** X1: [main] gives up, returning 1, exactly when [glfwInit] fails, or
    the window is not created, or GLEW (when built in) fails to
    initialise; it never returns another code on the way, and in every
    other case it reaches its main graphic loop. *)
Theorem main_setup_exit_iff (p : Platform) :
  (forall c, main_setup p = Exit c ->
             c = 1%Z
             /\ (glfwInit p = false \/ glfwCreateWindow p = false
                 \/ glewInit p = Some false))
  /\ (glfwInit p = false \/ glfwCreateWindow p = false
      \/ glewInit p = Some false ->
      main_setup p = Exit 1)
  /\ (glfwInit p = true -> glfwCreateWindow p = true ->
      glewInit p <> Some false ->
      exists g s, main_setup p = Started g s).
Proof.
  unfold main_setup.
  destruct (glfwInit p), (glfwCreateWindow p), (glewInit p) as [[|]|];
    simpl; (split; [|split]);
    try (intros c H; try discriminate H; injection H as <-; auto; fail);
    try (intros [H|[H|H]]; try discriminate H; reflexivity);
    try (intros H1 H2 H3; try discriminate; try (now elim H3);
         eexists; eexists; reflexivity).
Qed.

Lemma main_setup_exit_iff_witness :
  main_setup (mkPlatform true (mkVidmode 1920 1080 60) false (0, 0)%Z None
                demo_device 25.0 (1.0, 1.0)%float) = Exit 1
  /\ exists g s, main_setup demo_platform = Started g s.
Proof.
  split.
  - apply (main_setup_exit_iff
             (mkPlatform true (mkVidmode 1920 1080 60) false (0, 0)%Z None
                demo_device 25.0 (1.0, 1.0)%float)).
    right; left; reflexivity.
  - apply (main_setup_exit_iff demo_platform); try reflexivity. discriminate.
Defined.

Lemma Zrange_In (n : nat) :
  forall lo z, (lo <= z < lo + Z.of_nat n)%Z -> In z (Zrange lo n).
Proof.
  induction n as [|n IH]; intros lo z H; [lia|].
  simpl. destruct (Z.eq_dec lo z) as [->|Hne]; [now left|].
  right. apply IH. lia.
Qed.

Lemma size_exact_upto :
  forall h, (0 <= h <= 16384)%Z -> size_exact h = true.
Proof.
  intros h Hh.
  assert (Hall : forallb size_exact (Zrange 0 (Z.to_nat 16385)) = true)
    by (vm_compute; reflexivity).
  rewrite forallb_forall in Hall. apply Hall. apply Zrange_In.
  rewrite Z2Nat.id; lia.
Qed.

Lemma half_exact_upto :
  forall n, (-16384 <= n <= 16384)%Z -> half_exact n = true.
Proof.
  intros n Hn.
  assert (Hall : forallb half_exact (Zrange (-16384) (Z.to_nat 32769)) = true)
    by (vm_compute; reflexivity).
  rewrite forallb_forall in Hall. apply Hall. apply Zrange_In.
  rewrite Z2Nat.id; lia.
Qed.

(** The windowed geometry for a video mode, as [main] and the F key
    compute it in [double] and truncate. *)
Lemma windowed_geometry (mode : GLFWvidmode) :
  (0 <= width mode <= 16384)%Z -> (0 <= height mode <= 16384)%Z ->
  let w := int_of_double (0.8 * double_of_int (height mode)) in
  let h := int_of_double (0.5 * double_of_int (height mode)) in
  let x := int_of_double (0.5 * double_of_int (width mode - w)) in
  let y := int_of_double (0.5 * double_of_int (height mode - h)) in
  w = (4 * height mode / 5)%Z /\ h = (height mode / 2)%Z
  /\ x = Z.quot (width mode - w) 2 /\ y = ((height mode - h) / 2)%Z.
Proof.
  intros Hw Hh. cbv zeta.
  pose proof (size_exact_upto (height mode) Hh) as Hs.
  unfold size_exact in Hs. apply andb_prop in Hs. destruct Hs as (H1 & H2).
  apply Z.eqb_eq in H1, H2. rewrite H1, H2.
  assert (Hq : (0 <= 4 * height mode / 5 <= height mode)%Z).
  { split; [apply Z.div_pos; lia|]. apply Z.div_le_upper_bound; lia. }
  assert (Hd : (0 <= height mode / 2 <= height mode)%Z).
  { split; [apply Z.div_pos; lia|]. apply Z.div_le_upper_bound; lia. }
  split; [reflexivity|]. split; [reflexivity|]. split.
  - pose proof (half_exact_upto (width mode - 4 * height mode / 5)) as Hx.
    unfold half_exact in Hx. apply Z.eqb_eq. apply Hx. lia.
  - pose proof (half_exact_upto (height mode - height mode / 2)) as Hy.
    unfold half_exact in Hy. rewrite Z.quot_div_nonneg in Hy by lia.
    apply Z.eqb_eq. apply Hy. lia.
Qed.

(** X2: on a monitor of at most 16384 by 16384 pixels the window [main]
    opens is four fifths of the monitor's height wide and half of it high,
    both rounded down, and is centred on the monitor: the products and
    halves taken in [double] and truncated to [int] are the integer ones
    (the left edge is negative, rounded toward zero, when the window is
    wider than the monitor).  The globals [windowW] and [windowH] hold the
    same size. *)
Theorem main_window_geometry (p : Platform) (g : Globals) (s : Scene) :
  main_setup p = Started g s ->
  (0 <= width (videoMode p) <= 16384)%Z ->
  (0 <= height (videoMode p) <= 16384)%Z ->
  sizeW (window g) = (4 * height (videoMode p) / 5)%Z
  /\ sizeH (window g) = (height (videoMode p) / 2)%Z
  /\ posX (window g) = Z.quot (width (videoMode p) - sizeW (window g)) 2
  /\ posY (window g) = ((height (videoMode p) - sizeH (window g)) / 2)%Z
  /\ windowW g = sizeW (window g) /\ windowH g = sizeH (window g)
  /\ (0 <= sizeW (window g) <= height (videoMode p))%Z.
Proof.
  intros H Hw Hh. apply main_setup_globals in H. cbv zeta in H. subst g.
  cbn [window sizeW sizeH posX posY windowW windowH].
  destruct (windowed_geometry (videoMode p) Hw Hh) as (H1 & H2 & H3 & H4).
  cbv zeta in H1, H2, H3, H4.
  repeat split; try assumption.
  - rewrite H1. apply Z.div_pos; lia.
  - rewrite H1. apply Z.div_le_upper_bound; lia.
Qed.

Lemma main_window_geometry_witness :
  exists g s,
    main_setup demo_platform = Started g s
    /\ sizeW (window g) = 864%Z /\ sizeH (window g) = 540%Z
    /\ posX (window g) = 528%Z /\ posY (window g) = 270%Z.
Proof.
  destruct (main_setup demo_platform) as [c|g s] eqn:E;
    [vm_compute in E; discriminate E|].
  exists g, s.
  assert (Hw : (0 <= width (videoMode demo_platform) <= 16384)%Z)
    by (simpl; lia).
  assert (Hh : (0 <= height (videoMode demo_platform) <= 16384)%Z)
    by (simpl; lia).
  destruct (main_window_geometry demo_platform g s E Hw Hh)
    as (H1 & H2 & H3 & H4 & _).
  split; [reflexivity|].
  rewrite H3, H4, H1, H2. repeat split.
Defined.

(** ** The main thread: what stays in step *)

Lemma renderGraphics_in_step (g : Globals) :
  in_step g -> in_step (renderGraphics g).
Proof.
  unfold in_step, renderGraphics.
  destruct (viewport g) eqn:E; simpl; [|tauto].
  rewrite E. tauto.
Qed.

Lemma dispatch_in_step (mode : GLFWvidmode) (g : Globals) (e : Event) :
  in_step g -> in_step (dispatch mode g e).
Proof.
  intros H. destruct e as [k sc a m|w h|w h|xs ys|]; simpl.
  - unfold onKeyCallback.
    destruct (negb (a =? GLFW_PRESS)%Z && negb (a =? GLFW_REPEAT)%Z); trivial.
    destruct ((k =? GLFW_KEY_ESCAPE)%Z || (k =? GLFW_KEY_Q)%Z);
      [exact H|].
    destruct H as (H1 & H2 & H3 & H4 & H5 & H6).
    destruct (k =? GLFW_KEY_F)%Z.
    + unfold in_step. simpl.
      destruct (negb (fullscreen g)); simpl; rewrite H3; repeat split; trivial.
    + destruct (k =? GLFW_KEY_M)%Z; unfold in_step; simpl; repeat split;
        trivial.
  - unfold onWindowSizeCallback. apply renderGraphics_in_step. exact H.
  - exact H.
  - unfold onWindowContentScaleCallback, in_step in *.
    destruct (viewport g) eqn:E; simpl; [|tauto].
    repeat split; try tauto. discriminate.
  - exact H.
Qed.

Lemma glfwPollEvents_in_step (mode : GLFWvidmode) (pending : list Event) :
  forall g, in_step g -> in_step (glfwPollEvents mode pending g).
Proof.
  unfold glfwPollEvents.
  induction pending as [|e pending IH]; intros g H; simpl; [exact H|].
  apply IH. now apply dispatch_in_step.
Qed.

Lemma main_graphic_loop_in_step (mode : GLFWvidmode)
  (polls : list (list Event)) :
  forall g, in_step g -> in_step (fst (main_graphic_loop mode polls g)).
Proof.
  induction polls as [|pending polls IH]; intros g H; simpl.
  - now destruct (shouldClose (window g)).
  - destruct (shouldClose (window g)); [exact H|].
    apply IH. apply glfwPollEvents_in_step. now apply renderGraphics_in_step.
Qed.

(** X3: from the state [main] enters its graphic loop in, and whatever
    events the polls deliver, the main thread's settings stay in step: the
    window is on the monitor exactly when [fullscreen] is set, the camera
    mirrors exactly when [mirroredDisplay] is set, the swap interval stays
    1 and the multisampling hint 4, and the viewport is never null (so
    neither [renderGraphics] nor the content-scale callback meets a null
    viewport). *)
Theorem main_thread_stays_in_step (p : Platform) (g : Globals) (s : Scene)
  (mode : GLFWvidmode) (polls : list (list Event)) :
  main_setup p = Started g s ->
  in_step g /\ in_step (fst (main_graphic_loop mode polls g)).
Proof.
  intros H. apply main_setup_globals in H. cbv zeta in H.
  assert (Hg : in_step g).
  { subst g. unfold in_step. simpl. repeat split. discriminate. }
  split; [exact Hg|]. now apply main_graphic_loop_in_step.
Qed.

Lemma main_thread_stays_in_step_witness :
  exists g s,
    main_setup demo_platform = Started g s
    /\ in_step
         (fst (main_graphic_loop (videoMode demo_platform)
                 [[KeyEvent GLFW_KEY_F 41 GLFW_PRESS 0];
                  [KeyEvent GLFW_KEY_M 58 GLFW_PRESS 0;
                   ContentScaleEvent 2.0 2.0];
                  [WindowSizeEvent 1920 1080]] g)).
Proof.
  destruct (main_setup demo_platform) as [c|g s] eqn:E;
    [vm_compute in E; discriminate E|].
  exists g, s. split; [reflexivity|].
  exact (proj2 (main_thread_stays_in_step demo_platform g s _ _ E)).
Defined.

(** ** The F and M keys *)

(** X4: a press or a repeat of F toggles [fullscreen] and moves the window
    accordingly: entering full screen puts it on the monitor at (0, 0) with
    the monitor's width and height; leaving full screen puts it back, off
    the monitor, at the position and size [main] first gave it (as long as
    the video mode is the same).  Either way the window gets the monitor's
    refresh rate, the swap interval is applied again, and neither the close
    request, the mirroring, the size globals nor the frame count changes. *)
Theorem F_key_toggles_fullscreen (p : Platform) (g0 : Globals) (s : Scene)
  (sc a m : Z) (g : Globals) :
  main_setup p = Started g0 s ->
  a = GLFW_PRESS \/ a = GLFW_REPEAT ->
  let mode := videoMode p in
  let g' := onKeyCallback mode GLFW_KEY_F sc a m g in
  fullscreen g' = negb (fullscreen g)
  /\ onMonitor (window g') = fullscreen g'
  /\ (fullscreen g = false ->
      posX (window g') = 0%Z /\ posY (window g') = 0%Z
      /\ sizeW (window g') = width mode /\ sizeH (window g') = height mode)
  /\ (fullscreen g = true ->
      posX (window g') = posX (window g0) /\ posY (window g') = posY (window g0)
      /\ sizeW (window g') = sizeW (window g0)
      /\ sizeH (window g') = sizeH (window g0))
  /\ refresh (window g') = Some (refreshRate mode)
  /\ currentSwapInterval g' = Some (swapInterval g)
  /\ shouldClose (window g') = shouldClose (window g)
  /\ mirroredDisplay g' = mirroredDisplay g
  /\ cameraMirrorVertical g' = cameraMirrorVertical g
  /\ (windowW g', windowH g') = (windowW g, windowH g)
  /\ framesRendered g' = framesRendered g.
Proof.
  intros H Ha. apply main_setup_globals in H. cbv zeta in H. cbv zeta.
  unfold onKeyCallback.
  replace (negb (a =? GLFW_PRESS)%Z && negb (a =? GLFW_REPEAT)%Z) with false
    by (destruct Ha; subst a; reflexivity).
  cbn [GLFW_KEY_F GLFW_KEY_ESCAPE GLFW_KEY_Q Z.eqb Pos.eqb orb].
  cbv zeta. cbn [set_fullscreen fullscreen].
  destruct (fullscreen g) eqn:Ef; cbn [negb]; subst g0; cbn;
    repeat split; try reflexivity; try discriminate.
Qed.

Lemma F_key_toggles_fullscreen_witness :
  let mode := videoMode demo_platform in
  let once := onKeyCallback mode GLFW_KEY_F 41 GLFW_PRESS 0 demo_globals in
  let twice := onKeyCallback mode GLFW_KEY_F 41 GLFW_PRESS 0 once in
  (fullscreen once = true /\ sizeW (window once) = 1920%Z)
  /\ (fullscreen twice = false
      /\ posX (window twice) = 528%Z /\ sizeW (window twice) = 864%Z).
Proof.
  cbv zeta.
  destruct (main_setup demo_platform) as [c|g s] eqn:E;
    [vm_compute in E; discriminate E|].
  pose proof (F_key_toggles_fullscreen demo_platform g s 41 GLFW_PRESS 0
                demo_globals E (or_introl eq_refl)) as H1.
  pose proof (F_key_toggles_fullscreen demo_platform g s 41 GLFW_PRESS 0
                (onKeyCallback (videoMode demo_platform) GLFW_KEY_F 41
                   GLFW_PRESS 0 demo_globals) E (or_introl eq_refl)) as H2.
  cbv zeta in H1, H2.
  destruct H1 as (H1f & _ & H1in & _).
  destruct H2 as (H2f & _ & _ & H2out & _).
  split.
  - split; [rewrite H1f; reflexivity|].
    destruct (H1in eq_refl) as (_ & _ & Hw & _). rewrite Hw. reflexivity.
  - split; [rewrite H2f, H1f; reflexivity|].
    assert (Hfs : fullscreen (onKeyCallback (videoMode demo_platform)
                                GLFW_KEY_F 41 GLFW_PRESS 0 demo_globals) = true)
      by (rewrite H1f; reflexivity).
    destruct (H2out Hfs) as (Hx & _ & Hw & _).
    rewrite Hx, Hw. vm_compute in E. injection E as <- _.
    split; reflexivity.
Defined.

(** X5: a press or a repeat of M flips [mirroredDisplay] and sets the
    camera's mirroring to the new value, and changes nothing else; when
    the camera was in step with the flag, a second M gives back the very
    state the first one found. *)
Theorem M_key_flips_mirroring (mode : GLFWvidmode) (sc a m : Z) (g : Globals) :
  a = GLFW_PRESS \/ a = GLFW_REPEAT ->
  let g' := onKeyCallback mode GLFW_KEY_M sc a m g in
  g' = setMirrorVertical (negb (mirroredDisplay g))
         (set_mirroredDisplay (negb (mirroredDisplay g)) g)
  /\ mirroredDisplay g' = negb (mirroredDisplay g)
  /\ cameraMirrorVertical g' = negb (mirroredDisplay g)
  /\ (window g', fullscreen g', framesRendered g')
     = (window g, fullscreen g, framesRendered g)
  /\ (cameraMirrorVertical g = mirroredDisplay g ->
      onKeyCallback mode GLFW_KEY_M sc a m g' = g).
Proof.
  intros Ha. cbv zeta. unfold onKeyCallback.
  replace (negb (a =? GLFW_PRESS)%Z && negb (a =? GLFW_REPEAT)%Z) with false
    by (destruct Ha; subst a; reflexivity).
  cbn [GLFW_KEY_M GLFW_KEY_F GLFW_KEY_ESCAPE GLFW_KEY_Q Z.eqb Pos.eqb orb].
  cbv zeta.
  repeat split.
  intros Hstep. destruct g as [fs md ww wh fw fh si win cm vp csi sh fr].
  simpl in *. subst cm. unfold setMirrorVertical, set_mirroredDisplay. simpl.
  now rewrite negb_involutive.
Qed.

Lemma M_key_flips_mirroring_witness :
  cameraMirrorVertical
    (onKeyCallback (mkVidmode 1920 1080 60) GLFW_KEY_M 58 GLFW_PRESS 0
       demo_globals) = true
  /\ onKeyCallback (mkVidmode 1920 1080 60) GLFW_KEY_M 58 GLFW_REPEAT 0
       (onKeyCallback (mkVidmode 1920 1080 60) GLFW_KEY_M 58 GLFW_REPEAT 0
          demo_globals) = demo_globals.
Proof.
  split.
  - destruct (M_key_flips_mirroring (mkVidmode 1920 1080 60) 58 GLFW_PRESS 0
                demo_globals (or_introl eq_refl)) as (_ & _ & Hc & _).
    rewrite Hc. reflexivity.
  - destruct (M_key_flips_mirroring (mkVidmode 1920 1080 60) 58 GLFW_REPEAT 0
                demo_globals (or_intror eq_refl)) as (_ & _ & _ & _ & Hback).
    apply Hback. reflexivity.
Defined.

(** ** The main graphic loop: what ends it, and the frames it renders *)

(** What one event does to the close request, the frame count and the
    viewport, the viewport being there. *)
Lemma dispatch_effect (mode : GLFWvidmode) (g : Globals) (e : Event) :
  viewport g <> None ->
  shouldClose (window (dispatch mode g e))
  = shouldClose (window g) || closes e
  /\ framesRendered (dispatch mode g e)
     = framesRendered g + (if resizes e then 1 else 0)
  /\ viewport (dispatch mode g e) <> None.
Proof.
  intros Hv. destruct e as [k sc a m|w h|w h|xs ys|]; simpl.
  - unfold onKeyCallback.
    destruct ((a =? GLFW_PRESS)%Z); destruct ((a =? GLFW_REPEAT)%Z);
      cbn [negb andb orb];
      try (destruct ((k =? GLFW_KEY_ESCAPE)%Z || (k =? GLFW_KEY_Q)%Z);
           [simpl; rewrite orb_true_r, Nat.add_0_r; auto|];
           destruct (k =? GLFW_KEY_F)%Z;
           [simpl; destruct (negb (fullscreen g)); simpl;
            rewrite orb_false_r, Nat.add_0_r; auto|];
           destruct (k =? GLFW_KEY_M)%Z; simpl;
           rewrite orb_false_r, Nat.add_0_r; auto).
    rewrite orb_false_r, Nat.add_0_r. auto.
  - unfold onWindowSizeCallback, renderGraphics. simpl.
    destruct (viewport g) eqn:E; [|contradiction]. simpl.
    rewrite orb_false_r, E. repeat split; [lia|discriminate].
  - rewrite orb_false_r, Nat.add_0_r. auto.
  - unfold onWindowContentScaleCallback.
    destruct (viewport g) eqn:E; [|contradiction]. simpl.
    rewrite orb_false_r, Nat.add_0_r. repeat split. discriminate.
  - rewrite orb_true_r, Nat.add_0_r. auto.
Qed.

Lemma glfwPollEvents_effect (mode : GLFWvidmode) (pending : list Event) :
  forall g,
    viewport g <> None ->
    shouldClose (window (glfwPollEvents mode pending g))
    = shouldClose (window g) || existsb closes pending
    /\ framesRendered (glfwPollEvents mode pending g)
       = framesRendered g + List.length (filter resizes pending)
    /\ viewport (glfwPollEvents mode pending g) <> None.
Proof.
  unfold glfwPollEvents.
  induction pending as [|e pending IH]; intros g Hv; simpl.
  - rewrite orb_false_r, Nat.add_0_r. auto.
  - destruct (dispatch_effect mode g e Hv) as (Hc & Hf & Hv').
    destruct (IH _ Hv') as (Hc2 & Hf2 & Hv2).
    rewrite Hc2, Hf2, Hc, Hf, orb_assoc. repeat split; trivial.
    destruct (resizes e); simpl; lia.
Qed.

Lemma main_graphic_loop_effect (mode : GLFWvidmode)
  (polls : list (list Event)) :
  forall g,
    viewport g <> None -> shouldClose (window g) = false ->
    snd (main_graphic_loop mode polls g) = existsb (existsb closes) polls
    /\ framesRendered (fst (main_graphic_loop mode polls g))
       = framesRendered g + List.length (polls_run polls)
         + List.length (filter resizes (concat (polls_run polls))).
Proof.
  induction polls as [|pending polls IH]; intros g Hv Hc; simpl; rewrite Hc.
  - simpl. split; [reflexivity|lia].
  - assert (Hv1 : viewport (renderGraphics g) <> None).
    { unfold renderGraphics. destruct (viewport g) eqn:E; simpl; congruence. }
    assert (Hf1 : framesRendered (renderGraphics g) = S (framesRendered g)).
    { unfold renderGraphics. destruct (viewport g) eqn:E; [reflexivity|].
      contradiction. }
    destruct (glfwPollEvents_effect mode pending (renderGraphics g) Hv1)
      as (Hc2 & Hf2 & Hv2).
    rewrite renderGraphics_window, Hc in Hc2. simpl in Hc2.
    destruct (existsb closes pending) eqn:Ecl.
    + simpl. rewrite app_nil_r.
      destruct polls; simpl; rewrite Hc2; simpl;
        (split; [reflexivity|]); rewrite Hf2, Hf1; lia.
    + destruct (IH _ Hv2 Hc2) as (Hs & Hfr). simpl.
      rewrite Hs, Hfr, Hf2, Hf1, filter_app, length_app.
      split; [reflexivity|lia].
Qed.

(** X6: the main graphic loop is left, within the polls it is given,
    exactly when one of them delivers a press or repeat of Escape or Q or a
    close request: no other key, no release and no resize ends it.  And it
    renders one frame before each poll it gets to, plus one for every
    window resize those polls deliver. *)
Theorem main_graphic_loop_ends_and_frames (p : Platform) (g : Globals)
  (s : Scene) (mode : GLFWvidmode) (polls : list (list Event)) :
  main_setup p = Started g s ->
  snd (main_graphic_loop mode polls g) = existsb (existsb closes) polls
  /\ framesRendered (fst (main_graphic_loop mode polls g))
     = List.length (polls_run polls)
       + List.length (filter resizes (concat (polls_run polls))).
Proof.
  intros H. apply main_setup_globals in H. cbv zeta in H.
  assert (Hv : viewport g <> None) by (subst g; discriminate).
  assert (Hc : shouldClose (window g) = false) by (subst g; reflexivity).
  assert (Hf : framesRendered g = 0) by (subst g; reflexivity).
  destruct (main_graphic_loop_effect mode polls g Hv Hc) as (Hs & Hfr).
  rewrite Hs, Hfr, Hf. split; reflexivity.
Qed.

Lemma main_graphic_loop_ends_and_frames_witness :
  exists g s,
    main_setup demo_platform = Started g s
    /\ main_graphic_loop (videoMode demo_platform)
         [[KeyEvent GLFW_KEY_F 41 GLFW_PRESS 0; WindowSizeEvent 1920 1080];
          [KeyEvent GLFW_KEY_Q 24 GLFW_RELEASE 0];
          [KeyEvent 65 38 GLFW_PRESS 0]] g
       = (fst (main_graphic_loop (videoMode demo_platform)
                 [[KeyEvent GLFW_KEY_F 41 GLFW_PRESS 0;
                   WindowSizeEvent 1920 1080];
                  [KeyEvent GLFW_KEY_Q 24 GLFW_RELEASE 0];
                  [KeyEvent 65 38 GLFW_PRESS 0]] g), false)
    /\ framesRendered
         (fst (main_graphic_loop (videoMode demo_platform)
                 [[KeyEvent GLFW_KEY_F 41 GLFW_PRESS 0;
                   WindowSizeEvent 1920 1080];
                  [KeyEvent GLFW_KEY_Q 24 GLFW_RELEASE 0];
                  [KeyEvent 65 38 GLFW_PRESS 0]] g)) = 4.
Proof.
  destruct (main_setup demo_platform) as [c|g s] eqn:E;
    [vm_compute in E; discriminate E|].
  exists g, s. split; [reflexivity|].
  destruct (main_graphic_loop_ends_and_frames demo_platform g s
              (videoMode demo_platform)
              [[KeyEvent GLFW_KEY_F 41 GLFW_PRESS 0; WindowSizeEvent 1920 1080];
               [KeyEvent GLFW_KEY_Q 24 GLFW_RELEASE 0];
               [KeyEvent 65 38 GLFW_PRESS 0]] E) as (Hs & Hf).
  split.
  - rewrite (surjective_pairing (main_graphic_loop _ _ g)) at 1.
    rewrite Hs. reflexivity.
  - rewrite Hf. reflexivity.
Defined.

(** ** The haptics loop over its passes *)

Section PassProperties.

Variables sin cos : float -> float.

(** One pass in closed form: the state it leaves, from the state it finds
    and the frame it reads. *)
Lemma haptics_iteration_closed_form (fr : Frame) (st : Haptics) :
  let toolPos := getDeviceGlobalPos fr in
  let s := scene st in
  let in0 :=
    (distance fr Object0 toolPos <? 0.05 + radius (object0 s))%float in
  let f0 :=
    if in0
    then ((getDeviceGlobalForce fr + getDeviceGlobalLinVel fr *: 0.1) *: 4)%vec
    else getDeviceGlobalForce fr in
  let in3 :=
    (distance fr Object3 toolPos
     <? object3_radiusSum (inLoop st) (radius (object3 s)))%float in
  let t := (oscTime3 st + 0.001)%float in
  let w := (2.0 * 3.14159 * 6.0)%float in
  let f3 :=
    if in3
    then (f0 + Vec.mk (- (6.0 * cos (w * t))) (6.0 * sin (w * t))
                      (6.0 * cos (w * t)))%vec
    else f0 in
  let in2 :=
    (distance fr Object2 toolPos <? 0.03 + radius (object2 s))%float in
  let vel1 :=
    if in2
    then (object2Vel st + ((- f3 - object2Vel st *: 0.0) /: 0.5) *: 0.001)%vec
    else object2Vel st in
  let pos1 := (localPos (object2 s) + vel1 *: 0.001)%vec in
  let far := (1.0 <? Vec.length (pos1 - object2StartPos))%float in
  snd (haptics_iteration sin cos fr st)
  = mkHaptics in3
      (if far then Vec.mk 0 0 0 else (vel1 *: 0.999)%vec)
      (oscTime0 st)
      (if in3 then t else 0.0%float)
      (mkScene (children s) (object0 s) (object1 s)
         (setLocalPos (if far then object2StartPos else pos1) (object2 s))
         (object3 s))
      (calls st ++ pass_calls (if in2 then (f3 *: 10)%vec else f3)).
Proof.
  cbv zeta. rewrite haptics_iteration_unfold. cbv zeta. cbn [snd].
  set (s0 := log [computeGlobalPositions; updateFromDevice;
                  computeInteractionForces] st).
  rewrite (surjective_pairing
             (object0_stage fr (getDeviceGlobalPos fr)
                (getDeviceGlobalForce fr) s0)).
  rewrite object0_stage_force, object0_stage_state. cbn [fst snd].
  change (scene s0) with (scene st).
  set (f0 := if (distance fr Object0 (getDeviceGlobalPos fr)
                 <? 0.05 + radius (object0 (scene st)))%float
             then _ else _).
  destruct (distance fr Object3 (getDeviceGlobalPos fr)
            <? object3_radiusSum (inLoop st) (radius (object3 (scene st))))%float
    eqn:E3.
  - rewrite (object3_stage_inside sin cos fr (getDeviceGlobalPos fr) f0 s0 E3).
    cbv zeta. cbn [fst snd].
    rewrite object2_stage_unfold. cbv zeta. cbn [fst snd].
    unfold pass_calls, log, object2_setLocalPos, set_object2Vel, set_inLoop,
      set_oscTime3, s0, log.
    cbn [inLoop object2Vel oscTime0 oscTime3 scene calls children object0
         object1 object2 object3 localPos].
    destruct (distance fr Object2 (getDeviceGlobalPos fr)
              <? 0.03 + radius (object2 (scene st)))%float;
      match goal with
      | |- context [if ?c then mkHaptics _ _ _ _ _ _ else _] => destruct c
      end;
      cbn [inLoop object2Vel oscTime0 oscTime3 scene calls children object0
           object1 object2 object3 localPos];
      rewrite <- !app_assoc; reflexivity.
  - rewrite (object3_stage_outside sin cos fr (getDeviceGlobalPos fr) f0 s0 E3).
    cbn [fst snd].
    rewrite object2_stage_unfold. cbv zeta. cbn [fst snd].
    unfold pass_calls, log, object2_setLocalPos, set_object2Vel, set_inLoop,
      set_oscTime3, s0, log.
    cbn [inLoop object2Vel oscTime0 oscTime3 scene calls children object0
         object1 object2 object3 localPos].
    destruct (distance fr Object2 (getDeviceGlobalPos fr)
              <? 0.03 + radius (object2 (scene st)))%float;
      match goal with
      | |- context [if ?c then mkHaptics _ _ _ _ _ _ else _] => destruct c
      end;
      cbn [inLoop object2Vel oscTime0 oscTime3 scene calls children object0
           object1 object2 object3 localPos];
      rewrite <- !app_assoc; reflexivity.
Qed.

(** What a pass leaves of the scene and of the unused timer. *)
Lemma haptics_iteration_keeps (fr : Frame) (st : Haptics) :
  let st' := snd (haptics_iteration sin cos fr st) in
  children (scene st') = children (scene st)
  /\ object0 (scene st') = object0 (scene st)
  /\ object1 (scene st') = object1 (scene st)
  /\ object3 (scene st') = object3 (scene st)
  /\ object2 (scene st')
     = setLocalPos (localPos (object2 (scene st'))) (object2 (scene st))
  /\ oscTime0 st' = oscTime0 st.
Proof.
  cbv zeta. rewrite haptics_iteration_closed_form. cbv zeta.
  repeat split.
Qed.

(** X7: the haptics loop, however many passes it runs and whatever the
    engine reports, changes nothing of the scene but the local position of
    object2: the world's children, object0, object1 and object3 are as
    [main] left them, object2 keeps its radius, texture, material and
    effects, and the timer [oscTime0] is never written. *)
Theorem haptics_loop_moves_only_object2 (ticks : list Tick) (st : Haptics) :
  let st' := fst (haptics_loop sin cos ticks st) in
  children (scene st') = children (scene st)
  /\ object0 (scene st') = object0 (scene st)
  /\ object1 (scene st') = object1 (scene st)
  /\ object3 (scene st') = object3 (scene st)
  /\ object2 (scene st')
     = setLocalPos (localPos (object2 (scene st'))) (object2 (scene st))
  /\ oscTime0 st' = oscTime0 st.
Proof.
  cbv zeta. revert st.
  induction ticks as [|t rest IH]; intros st; simpl.
  - repeat split. now destruct (object2 (scene st)).
  - destruct (stop_requested t); simpl.
    + repeat split. now destruct (object2 (scene st)).
    + destruct (IH (snd (haptics_iteration sin cos (frame t) st)))
        as (H1 & H2 & H3 & H4 & H5 & H6).
      destruct (haptics_iteration_keeps (frame t) st)
        as (K1 & K2 & K3 & K4 & K5 & K6).
      cbv zeta in K1, K2, K3, K4, K5, K6.
      rewrite H1, H2, H3, H4, H6, K1, K2, K3, K4, K6.
      repeat split. rewrite H5, K5. reflexivity.
Qed.

Lemma haptics_loop_fold (ticks : list Tick) :
  forall st,
    haptics_loop sin cos ticks st
    = (fold_left (fun st t => snd (haptics_iteration sin cos (frame t) st))
         (ticks_run ticks) st,
       existsb stop_requested ticks).
Proof.
  induction ticks as [|t rest IH]; intros st; simpl; [reflexivity|].
  destruct (stop_requested t); simpl; [reflexivity|]. apply IH.
Qed.

Lemma ticks_run_all (ticks : list Tick) :
  Forall (fun t => stop_requested t = false) ticks ->
  forall fr rest, ticks_run (ticks ++ mkTick true fr :: rest) = ticks.
Proof.
  induction 1 as [|t ticks Ht _ IH]; intros fr rest; simpl; [reflexivity|].
  rewrite Ht. now rewrite IH.
Qed.

(** X8: the haptics loop is left exactly at the first test that finds
    [simulationRunning] cleared, and not before: with the flag still set at
    the tests of [ticks] and cleared at the next, the loop runs one pass
    per tick of [ticks], in order, and then stops; whatever the engine
    would have reported afterwards has no effect. *)
Theorem haptics_loop_stops_at_first_request (ticks : list Tick) (fr : Frame)
  (rest : list Tick) (st : Haptics) :
  Forall (fun t => stop_requested t = false) ticks ->
  haptics_loop sin cos (ticks ++ mkTick true fr :: rest) st
  = (fold_left (fun st t => snd (haptics_iteration sin cos (frame t) st))
       ticks st,
     true)
  /\ haptics_loop sin cos ticks st
     = (fold_left (fun st t => snd (haptics_iteration sin cos (frame t) st))
          ticks st,
        false)
  /\ passes_run (ticks ++ mkTick true fr :: rest) = List.length ticks.
Proof.
  intros H. rewrite !haptics_loop_fold.
  rewrite (ticks_run_all ticks H fr rest).
  assert (Hrun : ticks_run ticks = ticks).
  { clear fr rest. induction H as [|t ticks Ht _ IH]; simpl; [reflexivity|].
    now rewrite Ht, IH. }
  assert (Hex : existsb stop_requested ticks = false).
  { clear fr rest Hrun. induction H as [|t ticks Ht _ IH]; simpl;
      [reflexivity|]. now rewrite Ht. }
  rewrite Hrun, Hex, existsb_app. simpl. rewrite orb_true_r.
  split; [reflexivity|]. split; [reflexivity|].
  clear Hrun Hex. induction H as [|t ticks Ht _ IH]; simpl; [reflexivity|].
  now rewrite Ht, IH.
Qed.


(** X10: a pass with the tool out of reach of object0, object3 and object2
    is transparent to the device: the force it sets is the interaction
    force the engine computed, unchanged, the Object3 flag and timer are
    cleared, and object2 gets no push, only its drift: its position
    advances by its velocity times the time step and the velocity decays
    by 0.999 (or both are reset, if that takes it out of range). *)
Theorem out_of_reach_pass_is_transparent (fr : Frame) (st : Haptics) :
  out_of_reach fr Object0 (0.05 + radius (object0 (scene st))) ->
  out_of_reach fr Object3
    (object3_radiusSum (inLoop st) (radius (object3 (scene st)))) ->
  out_of_reach fr Object2 (0.03 + radius (object2 (scene st))) ->
  let st' := snd (haptics_iteration sin cos fr st) in
  let pos1 :=
    (localPos (object2 (scene st)) + object2Vel st *: 0.001)%vec in
  let far := (1.0 <? Vec.length (pos1 - Vec.mk 0.0 1.0 0.0))%float in
  calls st' = calls st ++ pass_calls (getDeviceGlobalForce fr)
  /\ inLoop st' = false /\ oscTime3 st' = 0.0%float
  /\ localPos (object2 (scene st'))
     = (if far then Vec.mk 0.0 1.0 0.0 else pos1)
  /\ object2Vel st'
     = (if far then Vec.mk 0 0 0 else (object2Vel st *: 0.999)%vec).
Proof.
  unfold out_of_reach. intros H0 H3 H2. cbv zeta.
  rewrite haptics_iteration_closed_form. cbv zeta.
  rewrite H0, H3, H2. cbn. repeat split.
Qed.




(** X12: as long as the tool stays out of reach of object2 (at a distance
    not below 0.03 plus its radius 0.3), the loop leaves object2 exactly
    where [main] put it, at rest: its position stays (0, 1, 0) and its
    velocity zero, pass after pass, whatever forces the other spheres add. *)
Theorem renderHaptics_object2_rests_out_of_reach (p : Platform) (g : Globals)
  (s : Scene) (ticks : list Tick) :
  main_setup p = Started g s ->
  Forall (fun t => out_of_reach (frame t) Object2 (0.03 + 0.3)) ticks ->
  let st' := fst (renderHaptics sin cos s ticks) in
  object2 (scene st') = object2 s
  /\ localPos (object2 (scene st')) = Vec.mk 0.0 1.0 0.0
  /\ object2Vel st' = Vec.mk 0 0 0.
Proof.
  intros H Hout. apply main_setup_scene in H. cbv zeta.
  set (s0 := create_objects (getSpecifications p) (getWorkspaceScaleFactor p)
               [Camera; Light; Tool]) in H.
  assert (Hinv : forall st,
             object2 (scene st) = object2 s0 ->
             object2Vel st = Vec.mk 0 0 0 ->
             object2 (scene (fst (haptics_loop sin cos ticks st))) = object2 s0
             /\ object2Vel (fst (haptics_loop sin cos ticks st)) = Vec.mk 0 0 0).
  { induction Hout as [|t rest Ht _ IH]; intros st Ho Hv; simpl; [auto|].
    destruct (stop_requested t); simpl; [auto|].
    unfold out_of_reach in Ht.
    apply IH; rewrite haptics_iteration_closed_form; cbv zeta;
      cbn [scene object2 object2Vel]; rewrite Ho, Hv;
      change (radius (object2 s0)) with 0.3%float; rewrite Ht;
      reflexivity. }
  subst s. unfold renderHaptics.
  destruct (Hinv (mkHaptics false (Vec.mk 0.0 0.0 0.0) 0.0 0.0 s0 []))
    as (Ho & Hv); [reflexivity|reflexivity|].
  rewrite Ho. repeat split. exact Hv.
Qed.

(** X13: the Object3 timer counts the passes spent inside.  While the tool
    stays within the entry threshold of object3 (distance below 0.05 plus
    its radius 0.5) and the loop keeps running, every pass adds the time
    step 0.001 to [oscTime3], whether or not the tool was inside before,
    and [inLoop] is set after the first of them. *)
Theorem oscillator_time_counts_passes_inside (ticks : list Tick) (st : Haptics) :
  radius (object3 (scene st)) = 0.5%float ->
  Forall (fun t =>
            stop_requested t = false
            /\ (distance (frame t) Object3 (getDeviceGlobalPos (frame t))
                <? 0.05 + 0.5)%float = true) ticks ->
  let st' := fst (haptics_loop sin cos ticks st) in
  oscTime3 st' = fold_left (fun t _ => (t + 0.001)%float) ticks (oscTime3 st)
  /\ (ticks <> [] -> inLoop st' = true).
Proof.
  intros Hr Hin. cbv zeta. revert st Hr.
  induction Hin as [|t rest (Hrun & Hd) _ IH]; intros st Hr; simpl.
  - split; [reflexivity|]. intros H; now elim H.
  - rewrite Hrun.
    assert (H3 : (distance (frame t) Object3 (getDeviceGlobalPos (frame t))
                  <? object3_radiusSum (inLoop st)
                       (radius (object3 (scene st))))%float = true).
    { rewrite Hr. destruct (inLoop st); simpl; [|exact Hd].
      apply (FloatOrder.ltb_trans _ _ _ Hd). reflexivity. }
    destruct (haptics_iteration_keeps (frame t) st) as (_ & _ & _ & K3 & _).
    cbv zeta in K3.
    assert (Hr' : radius (object3 (scene (snd (haptics_iteration sin cos
                                                 (frame t) st)))) = 0.5%float)
      by (rewrite K3; exact Hr).
    destruct (IH _ Hr') as (Ht & Hl).
    assert (Ho : oscTime3 (snd (haptics_iteration sin cos (frame t) st))
                 = (oscTime3 st + 0.001)%float
                 /\ inLoop (snd (haptics_iteration sin cos (frame t) st))
                    = true).
    { rewrite haptics_iteration_closed_form. cbv zeta.
      cbn [oscTime3 inLoop]. rewrite H3. split; reflexivity. }
    destruct Ho as (Ho & Hi).
    rewrite Ht, Ho. split; [reflexivity|]. intros _.
    destruct rest as [|t' rest']; [simpl; exact Hi|].
    apply Hl. discriminate.
Qed.

End PassProperties.

(** ** The loop on numbers *)

Lemma haptics_loop_stops_at_first_request_witness :
  let near := frame_of demo_scene (Vec.mk 0.3 0 0) Vec.zero Vec.zero in
  let away := frame_of demo_scene (Vec.mk 2 2 2) (Vec.mk 1 2 3) Vec.zero in
  let ticks := [mkTick false near; mkTick false away] in
  snd (haptics_loop sin_taylor cos_taylor
         (ticks ++ mkTick true near :: [mkTick false near]) demo_haptics) = true
  /\ List.length
       (calls (fst (haptics_loop sin_taylor cos_taylor
                      (ticks ++ mkTick true near :: [mkTick false near])
                      demo_haptics))) = 12
  /\ passes_run (ticks ++ mkTick true near :: [mkTick false near]) = 2.
Proof.
  cbv zeta.
  destruct (haptics_loop_stops_at_first_request sin_taylor cos_taylor
              [mkTick false (frame_of demo_scene (Vec.mk 0.3 0 0) Vec.zero
                               Vec.zero);
               mkTick false (frame_of demo_scene (Vec.mk 2 2 2) (Vec.mk 1 2 3)
                               Vec.zero)]
              (frame_of demo_scene (Vec.mk 0.3 0 0) Vec.zero Vec.zero)
              [mkTick false (frame_of demo_scene (Vec.mk 0.3 0 0) Vec.zero
                               Vec.zero)]
              demo_haptics) as (Hloop & _ & Hn).
  - repeat constructor.
  - rewrite Hloop, Hn. repeat split.
Defined.

Lemma out_of_reach_pass_is_transparent_witness :
  let away := frame_of demo_scene (Vec.mk 2 2 2) (Vec.mk 1 2 3) Vec.zero in
  calls (snd (haptics_iteration sin_taylor cos_taylor away demo_haptics))
  = pass_calls (Vec.mk 1 2 3)
  /\ localPos (object2 (scene (snd (haptics_iteration sin_taylor cos_taylor
                                      away demo_haptics))))
     = Vec.mk 0 1 0.
Proof.
  cbv zeta.
  destruct (out_of_reach_pass_is_transparent sin_taylor cos_taylor
              (frame_of demo_scene (Vec.mk 2 2 2) (Vec.mk 1 2 3) Vec.zero)
              demo_haptics) as (Hc & _ & _ & Hp & _);
    try (unfold out_of_reach; vm_compute; reflexivity).
  rewrite Hc, Hp. split; vm_compute; reflexivity.
Defined.


Lemma renderHaptics_object2_rests_out_of_reach_witness :
  exists g s,
    main_setup demo_platform = Started g s
    /\ localPos
         (object2
            (scene
               (fst (renderHaptics sin_taylor cos_taylor s
                       [mkTick false
                          (frame_of demo_scene (Vec.mk 0.3 0 0)
                             (Vec.mk 0 5 0) (Vec.mk 1 0 0));
                        mkTick false
                          (frame_of demo_scene (Vec.mk 0 (-1.2) 0)
                             (Vec.mk 0 5 0) (Vec.mk 1 0 0))]))))
       = Vec.mk 0 1 0.
Proof.
  destruct (main_setup demo_platform) as [c|g s] eqn:E;
    [vm_compute in E; discriminate E|].
  exists g, s. split; [reflexivity|].
  refine (proj1 (proj2 (renderHaptics_object2_rests_out_of_reach sin_taylor
                          cos_taylor demo_platform g s _ E _))).
  repeat constructor.
Defined.

Lemma oscillator_time_counts_passes_inside_witness :
  let near :=
    mkTick false (frame_of demo_scene (Vec.mk 0.3 0 0) Vec.zero Vec.zero) in
  oscTime3 (fst (haptics_loop sin_taylor cos_taylor [near; near; near]
                   demo_haptics)) = 0.003%float
  /\ inLoop (fst (haptics_loop sin_taylor cos_taylor [near; near; near]
                    demo_haptics)) = true.
Proof.
  cbv zeta.
  destruct (oscillator_time_counts_passes_inside sin_taylor cos_taylor
              [mkTick false (frame_of demo_scene (Vec.mk 0.3 0 0) Vec.zero
                               Vec.zero);
               mkTick false (frame_of demo_scene (Vec.mk 0.3 0 0) Vec.zero
                               Vec.zero);
               mkTick false (frame_of demo_scene (Vec.mk 0.3 0 0) Vec.zero
                               Vec.zero)]
              demo_haptics) as (Ht & Hl).
  - reflexivity.
  - repeat constructor.
  - rewrite Ht. split; [vm_compute; reflexivity|]. apply Hl. discriminate.
Defined.

(** ** Shutdown, once the haptics thread has started *)

Lemma orderly_parts (s : Shutdown.State) :
  orderly s = true ->
  Shutdown.handshake s = true
  /\ match Shutdown.hpc s with
     | Shutdown.HReturned => Shutdown.simulationFinished s
     | _ => true
     end = true
  /\ match Shutdown.cpc s with
     | Shutdown.CDelete =>
         negb (Shutdown.toolStarted s) && negb (Shutdown.resourcesDeleted s)
     | Shutdown.CReturned =>
         negb (Shutdown.toolStarted s) && Shutdown.resourcesDeleted s
     | _ => negb (Shutdown.resourcesDeleted s)
     end = true
  /\ (Shutdown.slept_ms s mod 100 = 0)%Z.
Proof.
  unfold orderly. intros H.
  apply andb_prop in H. destruct H as (H & Hms).
  apply andb_prop in H. destruct H as (H & Hc).
  apply andb_prop in H. destruct H as (Hh & Hf).
  apply Z.eqb_eq in Hms. auto.
Qed.

Lemma step_or_stay_orderly (s : Shutdown.State) (t : Shutdown.Thread) :
  orderly s = true -> orderly (Shutdown.step_or_stay s t) = true.
Proof.
  intros H. destruct (orderly_parts s H) as (Hh & Hf & Hc & Hms).
  assert (Hms' : ((Shutdown.slept_ms s + 100) mod 100 =? 0)%Z = true).
  { apply Z.eqb_eq. rewrite <- Zplus_mod_idemp_l, Hms. reflexivity. }
  apply Z.eqb_eq in Hms. unfold orderly.
  destruct s as [r f h c tool del n ms].
  destruct t, h, c, r, f, tool, del; simpl in *;
    try discriminate Hh; try discriminate Hc; try discriminate Hf;
    rewrite ?Hms, ?Hms'; reflexivity.
Qed.

Lemma run_orderly (schedule : list Shutdown.Thread) :
  forall s, orderly s = true -> orderly (Shutdown.run schedule s) = true.
Proof.
  unfold Shutdown.run.
  induction schedule as [|t schedule IH]; intros s H; simpl; [exact H|].
  apply IH. now apply step_or_stay_orderly.
Qed.

(** X14: when the haptics thread has run its two assignments (lines
    722-723) before [close] is entered, the shutdown is orderly on every
    schedule from then on: the tool is never stopped while the thread is in
    the body of its loop; when the tool is stopped the loop has been left
    and [simulationFinished] set; the resources are deleted only after the
    tool is stopped, and by then the thread has returned; and [close] has
    slept a whole number of 100 ms sleeps. *)
Theorem close_waits_for_started_loop (schedule : list Shutdown.Thread) :
  let s :=
    Shutdown.run (Shutdown.HapticsThread :: Shutdown.HapticsThread :: schedule)
      Shutdown.initial in
  Shutdown.body_on_stopped_tool s = false
  /\ (Shutdown.toolStarted s = false ->
      Shutdown.hpc s = Shutdown.HReturned
      /\ Shutdown.simulationFinished s = true)
  /\ (Shutdown.resourcesDeleted s = true ->
      Shutdown.toolStarted s = false /\ Shutdown.hpc s = Shutdown.HReturned)
  /\ (Shutdown.slept_ms s mod 100 = 0)%Z.
Proof.
  cbv zeta.
  change (Shutdown.run (Shutdown.HapticsThread :: Shutdown.HapticsThread
                        :: schedule) Shutdown.initial)
    with (Shutdown.run schedule
            (Shutdown.mkState true false Shutdown.HTest Shutdown.CClearRunning
               true false 0 0)).
  assert (H : orderly (Shutdown.run schedule
                         (Shutdown.mkState true false Shutdown.HTest
                            Shutdown.CClearRunning true false 0 0)) = true)
    by (apply run_orderly; reflexivity).
  apply orderly_parts in H. destruct H as (Hh & Hf & Hc & Hms).
  destruct (Shutdown.run schedule _) as [r f h c tool del n ms].
  simpl in Hms.
  destruct h, c, r, f, tool, del; simpl in *;
    try discriminate Hh; try discriminate Hc; try discriminate Hf;
    repeat split; try assumption; try reflexivity; intros;
    try discriminate; repeat split; reflexivity.
Qed.

(** With [simulationRunning] cleared and [close] under way, the haptics
    thread returns within the steps its place in the loop needs, running
    at most the pass it is in. *)
Lemma haptics_thread_returns (schedule : list Shutdown.Thread) :
  forall s,
    orderly s = true ->
    Shutdown.simulationRunning s = false ->
    Shutdown.cpc s <> Shutdown.CClearRunning ->
    steps_to_return (Shutdown.hpc s) <= haptics_steps schedule ->
    orderly (Shutdown.run schedule s) = true
    /\ Shutdown.hpc (Shutdown.run schedule s) = Shutdown.HReturned
    /\ Shutdown.cpc (Shutdown.run schedule s) <> Shutdown.CClearRunning
    /\ Shutdown.passes (Shutdown.run schedule s)
       = Shutdown.passes s
         + (match Shutdown.hpc s with Shutdown.HBody => 1 | _ => 0 end).
Proof.
  unfold Shutdown.run.
  induction schedule as [|t schedule IH]; intros s Ho Hr Hc Hn.
  - destruct (orderly_parts s Ho) as (Hh & _).
    destruct s as [r f h c tool del n ms].
    destruct h; simpl in *; try lia; try discriminate Hh;
      repeat split; trivial; lia.
  - simpl fold_left.
    pose proof (step_or_stay_orderly s t Ho) as Ho'.
    destruct (orderly_parts s Ho) as (Hh & _).
    destruct s as [r f h c tool del n ms]. simpl in Hr. subst r.
    assert (Hstep :
             let s1 := Shutdown.step_or_stay
                         (Shutdown.mkState false f h c tool del n ms) t in
             Shutdown.simulationRunning s1 = false
             /\ Shutdown.cpc s1 <> Shutdown.CClearRunning
             /\ steps_to_return (Shutdown.hpc s1) <= haptics_steps schedule
             /\ Shutdown.passes s1
                  + (match Shutdown.hpc s1 with Shutdown.HBody => 1 | _ => 0 end)
                = n + (match h with Shutdown.HBody => 1 | _ => 0 end)).
    { simpl in Hc. cbv zeta.
      destruct t, h, c; simpl in *; try discriminate Hh; try (now elim Hc);
        try (destruct f; simpl); repeat split; try discriminate; lia. }
    cbv zeta in Hstep. destruct Hstep as (S1 & S2 & S3 & S4).
    destruct (IH _ Ho' S1 S2 S3) as (H1 & H2 & H3 & H4).
    repeat split; trivial. rewrite H4. exact S4.
Qed.

(** Once the haptics thread has returned, four steps end [close]. *)
Lemma close_returns (s : Shutdown.State) :
  orderly s = true ->
  Shutdown.hpc s = Shutdown.HReturned ->
  Shutdown.cpc s <> Shutdown.CClearRunning ->
  let s' := Shutdown.run (repeat Shutdown.MainThread 4) s in
  Shutdown.hpc s' = Shutdown.HReturned
  /\ Shutdown.cpc s' = Shutdown.CReturned
  /\ Shutdown.simulationFinished s' = true
  /\ Shutdown.toolStarted s' = false
  /\ Shutdown.resourcesDeleted s' = true
  /\ Shutdown.passes s' = Shutdown.passes s.
Proof.
  intros Ho Hh Hc. destruct (orderly_parts s Ho) as (Hk & Hf & Hd & _).
  destruct s as [r f h c tool del n ms]. simpl in Hh. subst h.
  simpl in Hf. subst f.
  destruct c, tool, del; simpl in *; try discriminate Hk; try discriminate Hd;
    try (now elim Hc); repeat split.
Qed.

(** Before [close] is entered the haptics thread is in its loop, with
    [simulationRunning] set. *)
Lemma before_close (n : nat) :
  exists h k,
    (h = Shutdown.HTest \/ h = Shutdown.HBody)
    /\ Shutdown.run (repeat Shutdown.HapticsThread (2 + n)) Shutdown.initial
       = Shutdown.mkState true false h Shutdown.CClearRunning true false k 0.
Proof.
  unfold Shutdown.run. induction n as [|n IH].
  - exists Shutdown.HTest, 0. split; [now left|reflexivity].
  - replace (2 + S n) with ((2 + n) + 1) by lia.
    rewrite repeat_app, fold_left_app.
    destruct IH as (h & k & [->| ->] & ->).
    + exists Shutdown.HBody, k. split; [now right|reflexivity].
    + exists Shutdown.HTest, (S k). split; [now left|reflexivity].
Qed.

(** X15: the shutdown completes.  When the haptics thread has run its two
    assignments and any number of steps of its loop before [close] is
    entered, then once [close] has cleared [simulationRunning] and the
    haptics thread has been given three more steps, however interleaved
    with those of [close], four further steps of [close] end it: the
    thread has left its loop and returned, having run at most one pass
    more than when the flag was cleared, the tool is stopped and the
    resources are deleted. *)
Theorem shutdown_completes (n : nat) (schedule : list Shutdown.Thread) :
  3 <= haptics_steps schedule ->
  let before :=
    Shutdown.run (repeat Shutdown.HapticsThread (2 + n)) Shutdown.initial in
  let s :=
    Shutdown.run (repeat Shutdown.HapticsThread (2 + n)
                  ++ Shutdown.MainThread :: schedule
                  ++ repeat Shutdown.MainThread 4)
      Shutdown.initial in
  Shutdown.hpc s = Shutdown.HReturned
  /\ Shutdown.cpc s = Shutdown.CReturned
  /\ Shutdown.simulationFinished s = true
  /\ Shutdown.toolStarted s = false
  /\ Shutdown.resourcesDeleted s = true
  /\ Shutdown.passes s <= Shutdown.passes before + 1.
Proof.
  intros Hn. cbv zeta.
  destruct (before_close n) as (h & k & Hh & Hb).
  assert (Hrun : Shutdown.run (repeat Shutdown.HapticsThread (2 + n)
                               ++ Shutdown.MainThread :: schedule
                               ++ repeat Shutdown.MainThread 4)
                   Shutdown.initial
                 = Shutdown.run (repeat Shutdown.MainThread 4)
                     (Shutdown.run schedule
                        (Shutdown.mkState false false h Shutdown.CTest true
                           false k 0))).
  { unfold Shutdown.run in *. rewrite fold_left_app, Hb.
    cbn [fold_left]. rewrite fold_left_app. reflexivity. }
  rewrite Hrun, Hb. cbn [Shutdown.passes].
  set (s1 := Shutdown.mkState false false h Shutdown.CTest true false k 0).
  assert (Ho : orderly s1 = true) by (destruct Hh; subst h; reflexivity).
  destruct (haptics_thread_returns schedule s1 Ho eq_refl)
    as (H1 & H2 & H3 & H4).
  { discriminate. }
  { destruct Hh; subst h; simpl; lia. }
  destruct (close_returns _ H1 H2 H3) as (C1 & C2 & C3 & C4 & C5 & C6).
  cbv zeta in C1, C2, C3, C4, C5, C6.
  repeat split; trivial.
  rewrite C6, H4. simpl. destruct Hh; subst h; lia.
Qed.

Lemma shutdown_completes_witness :
  let schedule :=
    [Shutdown.HapticsThread; Shutdown.MainThread; Shutdown.MainThread;
     Shutdown.HapticsThread; Shutdown.MainThread; Shutdown.HapticsThread] in
  let s :=
    Shutdown.run (repeat Shutdown.HapticsThread (2 + 5)
                  ++ Shutdown.MainThread :: schedule
                  ++ repeat Shutdown.MainThread 4)
      Shutdown.initial in
  Shutdown.cpc s = Shutdown.CReturned
  /\ Shutdown.resourcesDeleted s = true
  /\ Shutdown.passes s = 3
  /\ Shutdown.slept_ms s = 200%Z.
Proof.
  cbv zeta.
  destruct (shutdown_completes 5
              [Shutdown.HapticsThread; Shutdown.MainThread; Shutdown.MainThread;
               Shutdown.HapticsThread; Shutdown.MainThread;
               Shutdown.HapticsThread])
    as (_ & Hc & _ & _ & Hd & _).
  - simpl. lia.
  - cbv zeta in Hc, Hd. split; [exact Hc|]. split; [exact Hd|].
    split; reflexivity.
Defined.
